(** * PyLogicTools: logic gates, number systems and truth tables

    A shallow embedding of [logic_gates.py], [number_systems.py] and
    [truth_table.py], and the properties of these modules. *)

From Stdlib Require Import ZArith List Bool Ascii String Lia Sorting.Sorted FinFun.
From Stdlib Require Import DecimalString Permutation.
Import ListNotations.

Local Open Scope Z_scope.

(** ** Python values, exceptions and results *)

Module Py.

(** The fragment of Python's objects the modules are applied to: [bool],
    [int], [str] (ASCII) and [None].  Floats are left out. *)
Inductive value : Type :=
| VBool (b : bool)
| VInt (z : Z)
| VStr (s : string)
| VNone.

Inductive exn : Type :=
| TypeError (reason : string)
| ValueError (reason : string)
| OtherError (name : string).

(** A computation either returns or raises. *)
Inductive result (A : Type) : Type :=
| Return (a : A)
| Raise (e : exn).

Arguments Return {A} a.
Arguments Raise {A} e.

Definition bind {A B : Type} (m : result A) (k : A -> result B) : result B :=
  match m with
  | Return a => k a
  | Raise e => Raise e
  end.

(** [bool(v)]: Python's truth value of an object. *)
Definition truthy (v : value) : bool :=
  match v with
  | VBool b => b
  | VInt z => negb (z =? 0)
  | VStr s => negb (String.eqb s EmptyString)
  | VNone => false
  end.

(** [a + v] for an [int] accumulator [a], as [sum] performs it: [bool] is a
    subclass of [int]; [str] and [None] do not support the operation. *)
Definition add_int (a : Z) (v : value) : result Z :=
  match v with
  | VBool b => Return (a + Z.b2z b)
  | VInt z => Return (a + z)
  | VStr _ => Raise (TypeError "unsupported operand type(s) for +: 'int' and 'str'")
  | VNone => Raise (TypeError "unsupported operand type(s) for +: 'int' and 'NoneType'")
  end.

(** [sum(inputs)]: left to right from the start value [0]. *)
Fixpoint sum_from (a : Z) (inputs : list value) : result Z :=
  match inputs with
  | [] => Return a
  | v :: rest => bind (add_int a v) (fun a' => sum_from a' rest)
  end.

Definition sum (inputs : list value) : result Z := sum_from 0 inputs.

(** [all(inputs)] and [any(inputs)]. *)
Definition all (inputs : list value) : bool := forallb truthy inputs.
Definition any (inputs : list value) : bool := existsb truthy inputs.

End Py.

Import Py.

Declare Scope py_scope.
Delimit Scope py_scope with py.
Notation "x <- m ;; k" := (bind m (fun x => k))
  (at level 61, m at next level, right associativity) : py_scope.
Local Open Scope py_scope.

(** ** logic_gates.py *)

Module LogicGates.

Definition AND (inputs : list value) : bool :=
  match inputs with
  | [] => true
  | _ => all inputs
  end.

Definition OR (inputs : list value) : bool :=
  match inputs with
  | [] => false
  | _ => any inputs
  end.

Definition NOT (input_val : value) : bool := negb (truthy input_val).

Definition XOR (inputs : list value) : result bool :=
  match inputs with
  | [] => Return false
  | _ =>
      true_count <- sum inputs ;;
      Return (true_count mod 2 =? 1)
  end.

Definition NAND (inputs : list value) : bool := NOT (VBool (AND inputs)).

Definition NOR (inputs : list value) : bool := NOT (VBool (OR inputs)).

Definition XNOR (inputs : list value) : result bool :=
  r <- XOR inputs ;;
  Return (NOT (VBool r)).

End LogicGates.

(** ** Python's builtins on strings: [int(text, base)], [int(x)], [bin(n)] *)

Module PyStr.

Definition code (c : ascii) : Z := Z.of_N (N_of_ascii c).

(** Whitespace as [int] skips it around a literal of an ASCII string: tab
    to carriage return, and the space. *)
Definition is_space (c : ascii) : bool :=
  let n := code c in
  ((9 <=? n) && (n <=? 13)) || (n =? 32).

(** Value of a digit character: [0-9], then letters of either case. *)
Definition digit_value (c : ascii) : option Z :=
  let n := code c in
  if (48 <=? n) && (n <=? 57) then Some (n - 48)
  else if (97 <=? n) && (n <=? 122) then Some (n - 87)
  else if (65 <=? n) && (n <=? 90) then Some (n - 55)
  else None.

Fixpoint lstrip (s : string) : string :=
  match s with
  | EmptyString => EmptyString
  | String c rest => if is_space c then lstrip rest else s
  end.

Fixpoint rstrip (s : string) : string :=
  match s with
  | EmptyString => EmptyString
  | String c rest =>
      match rstrip rest with
      | EmptyString => if is_space c then EmptyString else String c EmptyString
      | kept => String c kept
      end
  end.

Definition strip (s : string) : string := rstrip (lstrip s).

Definition invalid_literal : exn := ValueError "invalid literal for int()".

Definition is_underscore (c : ascii) : bool := Ascii.eqb c "_"%char.

(** Digits of the literal, left to right; an underscore may only stand
    between two digits. *)
Fixpoint scan_digits (base acc : Z) (prev_underscore : bool) (s : string)
  : result Z :=
  match s with
  | EmptyString => if prev_underscore then Raise invalid_literal else Return acc
  | String c rest =>
      if is_underscore c then
        if prev_underscore then Raise invalid_literal
        else scan_digits base acc true rest
      else
        match digit_value c with
        | Some d =>
            if d <? base then scan_digits base (acc * base + d) false rest
            else Raise invalid_literal
        | None => Raise invalid_literal
        end
  end.

Definition skip_sign (s : string) : Z * string :=
  match s with
  | String c rest =>
      if Ascii.eqb c "+"%char then (1, rest)
      else if Ascii.eqb c "-"%char then (-1, rest)
      else (1, s)
  | EmptyString => (1, s)
  end.

Definition is_prefix_letter (base : Z) (c : ascii) : bool :=
  ((base =? 16) && (Ascii.eqb c "x"%char || Ascii.eqb c "X"%char))
  || ((base =? 8) && (Ascii.eqb c "o"%char || Ascii.eqb c "O"%char))
  || ((base =? 2) && (Ascii.eqb c "b"%char || Ascii.eqb c "B"%char)).

(** A [0x], [0o] or [0b] prefix that matches the base is skipped, with one
    underscore after it. *)
Definition skip_prefix (base : Z) (s : string) : string :=
  match s with
  | String z (String c rest) =>
      if Ascii.eqb z "0"%char && is_prefix_letter base c then
        match rest with
        | String u rest' => if is_underscore u then rest' else rest
        | EmptyString => rest
        end
      else s
  | _ => s
  end.

Fixpoint count_digits (s : string) : Z :=
  match s with
  | EmptyString => 0
  | String c rest => (if is_underscore c then 0 else 1) + count_digits rest
  end.

(** The interpreter's default limit on the digits of a literal in a base
    that is not a power of two. *)
Definition int_max_str_digits : Z := 4300.

Definition is_power_of_two (base : Z) : bool :=
  (base =? 2) || (base =? 4) || (base =? 8) || (base =? 16) || (base =? 32).

(** [int(text, base)] for an explicit base from 2 to 36. *)
Definition int_of_string (base : Z) (text : string) : result Z :=
  let (sign, unsigned) := skip_sign (strip text) in
  let digits := skip_prefix base unsigned in
  match digits with
  | EmptyString => Raise invalid_literal
  | String c _ =>
      if is_underscore c then Raise invalid_literal
      else
        n <- scan_digits base 0 false digits ;;
        if negb (is_power_of_two base) && (int_max_str_digits <? count_digits digits)
        then Raise (ValueError "Exceeds the limit for integer string conversion")
        else Return (sign * n)
  end.

(** [int(x)] with one argument. *)
Definition int_ (x : value) : result Z :=
  match x with
  | VBool b => Return (Z.b2z b)
  | VInt z => Return z
  | VStr s => int_of_string 10 s
  | VNone => Raise (TypeError "int() argument must be a string, a bytes-like object or a real number, not 'NoneType'")
  end.

(** Binary digits of a positive number, most significant first. *)
Fixpoint bin_digits (p : positive) : string :=
  match p with
  | xH => "1"
  | xO q => bin_digits q ++ "0"
  | xI q => bin_digits q ++ "1"
  end.

(** [bin(n)]. *)
Definition bin (n : Z) : string :=
  match n with
  | Z0 => "0b0"
  | Zpos p => "0b" ++ bin_digits p
  | Zneg p => "-0b" ++ bin_digits p
  end.

(** The slice [s[n:]] for [n >= 0]. *)
Fixpoint slice_from (n : nat) (s : string) : string :=
  match n, s with
  | O, _ => s
  | S m, EmptyString => EmptyString
  | S m, String _ rest => slice_from m rest
  end.

(** The character of a digit value below 36, in lower case. *)
Definition digit_char (d : Z) : ascii :=
  if d <? 10 then ascii_of_N (Z.to_N (48 + d))
  else ascii_of_N (Z.to_N (87 + d)).

(** Digits of a non-negative number in a base, most significant first; the
    fuel bounds the number of digits. *)
Fixpoint digits_fuel (fuel : nat) (base n : Z) : string :=
  match fuel with
  | O => EmptyString
  | S f =>
      if n <? base then String (digit_char n) EmptyString
      else digits_fuel f base (n / base)
             ++ String (digit_char (n mod base)) EmptyString
  end.

(** Hexadecimal digits of a positive number: it has no more of them than
    binary digits. *)
Definition hex_digits (p : positive) : string :=
  digits_fuel (Pos.size_nat p) 16 (Zpos p).

(** [hex(n)]. *)
Definition hex (n : Z) : string :=
  match n with
  | Z0 => "0x0"
  | Zpos p => "0x" ++ hex_digits p
  | Zneg p => "-0x" ++ hex_digits p
  end.

Definition upper_char (c : ascii) : ascii :=
  let n := code c in
  if (97 <=? n) && (n <=? 122) then ascii_of_N (Z.to_N (n - 32)) else c.

(** [s.upper()] (ASCII range). *)
Fixpoint upper (s : string) : string :=
  match s with
  | EmptyString => EmptyString
  | String c rest => String (upper_char c) (upper rest)
  end.

(** The one-character string [c] repeated [n] times: [c * n]. *)
Fixpoint repeat_char (c : ascii) (n : nat) : string :=
  match n with
  | O => EmptyString
  | S m => String c (repeat_char c m)
  end.


(** The decimal numeral of an integer, with its sign. *)
Definition decimal_string (n : Z) : string :=
  NilZero.string_of_int (Z.to_int n).

(** The number of digits of the decimal numeral, the sign apart. *)
Definition decimal_digits (n : Z) : Z :=
  let len := Z.of_nat (String.length (decimal_string n)) in
  if n <? 0 then len - 1 else len.

Definition too_many_digits : exn :=
  ValueError "Exceeds the limit for integer string conversion".

(** [str(n)] for an [int]: the conversion is refused when the numeral has
    more digits than the interpreter's limit. *)
Definition str_of_int (n : Z) : result string :=
  if int_max_str_digits <? decimal_digits n then Raise too_many_digits
  else Return (decimal_string n).

(** [str(x)], as an f-string formats a value. *)
Definition str_ (x : value) : result string :=
  match x with
  | VBool true => Return "True"%string
  | VBool false => Return "False"%string
  | VInt z => str_of_int z
  | VStr s => Return s
  | VNone => Return "None"%string
  end.

(** [sep.join(parts)]. *)
Definition join (sep : string) (parts : list string) : string :=
  String.concat sep parts.

End PyStr.

Import PyStr.

(** ** number_systems.py *)

Module NumberSystems.

Definition decimal_to_binary (decimal : Z) : string :=
  if decimal =? 0 then "0"
  else slice_from 2 (bin decimal).

Definition binary_to_decimal (binary : string) : result Z :=
  int_of_string 2 binary.

Definition hex_to_decimal (hex_val : string) : result Z :=
  int_of_string 16 hex_val.

Definition hex_to_binary (hex_val : string) : result string :=
  decimal <- hex_to_decimal hex_val ;;
  Return (decimal_to_binary decimal).

Definition decimal_to_hex (decimal : Z) : string :=
  upper (slice_from 2 (hex decimal)).

Definition binary_to_hex (binary : string) : result string :=
  decimal <- binary_to_decimal binary ;;
  Return (decimal_to_hex decimal).


Definition not_an_integer : exn :=
  TypeError "object cannot be interpreted as an integer".

Definition non_string_with_base : exn :=
  TypeError "int() can't convert non-string with explicit base".

(** The three lines that [show_conversions] prints; formatting [dec] for
    the first one may raise, before anything is printed. *)
Definition conversion_lines (dec : value) (bin_val hex_val : string)
  : result (list string) :=
  shown <- str_ dec ;;
  Return [ "Decimal: " ++ shown; "Binary:  " ++ bin_val;
           "Hex:     " ++ hex_val ]%string.

(** [show_conversions(number, base)]: the lines printed, or the exception
    raised before anything is printed.  A [bool] converts as the integer
    it is; [bin] and [hex] refuse a [str] or [None], and [int] with a base
    refuses everything but a [str]; with a base that is none of the three
    names no branch binds [dec]. *)
Definition show_conversions (number : value) (base : string)
  : result (list string) :=
  if String.eqb base "decimal" then
    match number with
    | VInt dec =>
        conversion_lines number (decimal_to_binary dec) (decimal_to_hex dec)
    | VBool b =>
        conversion_lines number (decimal_to_binary (Z.b2z b))
          (decimal_to_hex (Z.b2z b))
    | VStr _ | VNone => Raise not_an_integer
    end
  else if String.eqb base "binary" then
    match number with
    | VStr bin_val =>
        dec <- binary_to_decimal bin_val ;;
        conversion_lines (VInt dec) bin_val (decimal_to_hex dec)
    | _ => Raise non_string_with_base
    end
  else if String.eqb base "hex" then
    match number with
    | VStr hex_val =>
        dec <- hex_to_decimal hex_val ;;
        conversion_lines (VInt dec) (decimal_to_binary dec) hex_val
    | _ => Raise non_string_with_base
    end
  else Raise (OtherError "UnboundLocalError").

End NumberSystems.

(** ** Callables and [itertools.product] *)

Module PyFun.

(** A callable with its positional signature: [min_args] required
    parameters, at most [max_args] ([None] when it is variadic). *)
Record callable : Type := {
  min_args : nat;
  max_args : option nat;
  body : list value -> result value
}.

Definition accepts (f : callable) (n : nat) : bool :=
  (min_args f <=? n)%nat &&
  match max_args f with
  | Some m => (n <=? m)%nat
  | None => true
  end.

Definition argument_mismatch : exn :=
  TypeError "wrong number of positional arguments".

(** A call that unpacks [args]: the arguments are bound to the parameters
    before the body runs. *)
Definition call (f : callable) (args : list value) : result value :=
  if accepts f (List.length args) then body f args
  else Raise argument_mismatch.

(** [product(pool, repeat=n)], as the itertools documentation defines it:
    every pool in turn extends each partial tuple on the right. *)
Definition product {A : Type} (pool : list A) (repeat_ : nat) : list (list A) :=
  let pools := repeat pool repeat_ in
  fold_left
    (fun result pool' => flat_map (fun x => map (fun y => x ++ [y]) pool') result)
    pools [[]].

(** A [for] loop whose body may raise: the first exception ends it. *)
Fixpoint for_each {A S : Type} (items : list A) (step : S -> A -> result S)
  (s : S) : result S :=
  match items with
  | [] => Return s
  | x :: rest => s' <- step s x ;; for_each rest step s'
  end.

End PyFun.

Import PyFun.

(** ** truth_table.py *)

Module TruthTable.

Import LogicGates.

Definition generate_table (variables : list string) (expression_func : callable)
  : result (list (list Z)) :=
  let num_vars := List.length variables in
  let combinations := product [0; 1] num_vars in
  for_each combinations
    (fun table combo =>
       result <- call expression_func (map VInt combo) ;;
       r <- int_ result ;;
       let row := combo ++ [r] in
       Return (table ++ [row]))
    [].

(** The expressions of [and_table], [or_table], [xor_table], [not_table]. *)
Definition and_lambda : callable :=
  {| min_args := 2; max_args := Some 2%nat;
     body := fun args => Return (VBool (AND args)) |}.

Definition or_lambda : callable :=
  {| min_args := 2; max_args := Some 2%nat;
     body := fun args => Return (VBool (OR args)) |}.

Definition xor_lambda : callable :=
  {| min_args := 2; max_args := Some 2%nat;
     body := fun args => r <- XOR args ;; Return (VBool r) |}.

Definition not_lambda : callable :=
  {| min_args := 1; max_args := Some 1%nat;
     body := fun args => Return (VBool (NOT (hd VNone args))) |}.

(** [map(str, row)] consumed by [join]: the first entry that [str]
    refuses ends it. *)
Fixpoint str_all (row : list Z) : result (list string) :=
  match row with
  | [] => Return []
  | z :: rest =>
      cell <- str_of_int z ;;
      cells <- str_all rest ;;
      Return (cell :: cells)
  end.

(** The loop over the rows of [show_table]: the lines printed, and whether
    the loop ended or raised. *)
Fixpoint print_rows (table : list (list Z)) : list string * result unit :=
  match table with
  | [] => ([], Return tt)
  | row :: rest =>
      match str_all row with
      | Raise e => ([], Raise e)
      | Return cells =>
          let (out, r) := print_rows rest in
          (join " | " cells :: out, r)
      end
  end.

(** [show_table(variables, table)]: the lines it prints, and whether it
    returns or raises after them. *)
Definition show_table (variables : list string) (table : list (list Z))
  : list string * result unit :=
  let header := (join " | " variables ++ " | Result")%string in
  let (out, r) := print_rows table in
  ([header; repeat_char "-" (String.length header)] ++ out, r).

(** The gate tables: the lines printed, and the table returned or the
    exception raised; the default of [var_names] is [['A', 'B']], for
    [not_table] it is [['A']]. *)
Definition and_table (var_names : list string)
  : list string * result (list (list Z)) :=
  match generate_table var_names and_lambda with
  | Raise e => ([], Raise e)
  | Return table =>
      let (out, shown) := show_table var_names table in
      (out, bind shown (fun _ => Return table))
  end.

Definition or_table (var_names : list string)
  : list string * result (list (list Z)) :=
  match generate_table var_names or_lambda with
  | Raise e => ([], Raise e)
  | Return table =>
      let (out, shown) := show_table var_names table in
      (out, bind shown (fun _ => Return table))
  end.

Definition xor_table (var_names : list string)
  : list string * result (list (list Z)) :=
  match generate_table var_names xor_lambda with
  | Raise e => ([], Raise e)
  | Return table =>
      let (out, shown) := show_table var_names table in
      (out, bind shown (fun _ => Return table))
  end.

Definition not_table (var_names : list string)
  : list string * result (list (list Z)) :=
  match generate_table var_names not_lambda with
  | Raise e => ([], Raise e)
  | Return table =>
      let (out, shown) := show_table var_names table in
      (out, bind shown (fun _ => Return table))
  end.

End TruthTable.

Import LogicGates NumberSystems TruthTable.

(** ** Vocabulary of the properties *)

(** Number of truthy inputs. *)
Definition count_truthy (inputs : list value) : nat :=
  List.length (filter truthy inputs).

(** The canonical booleans: [True], [False] and the integers [1], [0]. *)
Definition is_boolean (v : value) : bool :=
  match v with
  | VBool _ => true
  | VInt z => (z =? 0) || (z =? 1)
  | _ => false
  end.

Definition is_bit (z : Z) : Prop := z = 0 \/ z = 1.

(** The expression returns, on every tuple of [n] bits, a value that
    [int] converts. *)
Definition total_expr (n : nat) (f : callable) : Prop :=
  forall combo, List.length combo = n -> Forall is_bit combo ->
    exists v r, call f (map VInt combo) = Return v /\ int_ v = Return r.

(** The expression maps every tuple of [n] bits to a single boolean. *)
Definition boolean_expr (n : nat) (f : callable) : Prop :=
  forall combo, List.length combo = n -> Forall is_bit combo ->
    exists b, call f (map VInt combo) = Return (VBool b).

(** The expression takes exactly [k] positional arguments. *)
Definition fixed_arity (f : callable) (k : nat) : Prop :=
  min_args f = k /\ max_args f = Some k.

(** [row] is the row that [generate_table] builds for [combo]. *)
Definition row_for (f : callable) (combo row : list Z) : Prop :=
  exists v r, call f (map VInt combo) = Return v /\ int_ v = Return r /\
              row = combo ++ [r].

(** The input portion of the rows of a table over [n] variables. *)
Definition inputs (n : nat) (table : list (list Z)) : list (list Z) :=
  map (firstn n) table.

(** One more position on the right of every partial tuple. *)
Definition extend {A : Type} (pool : list A) (partial : list (list A))
  : list (list A) :=
  flat_map (fun x => map (fun y => x ++ [y]) pool) partial.

(** Nested loops over the pool, the first position in the outermost loop. *)
Fixpoint nested_loops {A : Type} (pool : list A) (n : nat) : list (list A) :=
  match n with
  | O => [[]]
  | S m => flat_map (fun y => map (cons y) (nested_loops pool m)) pool
  end.

(** The number a tuple of bits denotes, most significant bit first. *)
Definition binary_value (bits : list Z) : Z :=
  fold_left (fun acc b => 2 * acc + b) bits 0.

(** Lexicographic order on tuples of integers. *)
Inductive lex_lt : list Z -> list Z -> Prop :=
| lex_lt_nil : forall x l, lex_lt [] (x :: l)
| lex_lt_head : forall x y l l', x < y -> lex_lt (x :: l) (y :: l')
| lex_lt_tail : forall x l l', lex_lt l l' -> lex_lt (x :: l) (x :: l').

(** The characters of a string of binary digits. *)
Fixpoint binary_string (s : string) : Prop :=
  match s with
  | EmptyString => True
  | String c rest => (c = "0"%char \/ c = "1"%char) /\ binary_string rest
  end.

(** The inputs that [sum] can add up: [bool] and [int]. *)
Definition is_numeric (v : value) : bool :=
  match v with
  | VBool _ | VInt _ => true
  | VStr _ | VNone => false
  end.

(** The integer a numeric input counts for in a sum. *)
Definition int_value (v : value) : Z :=
  match v with
  | VBool b => Z.b2z b
  | VInt z => z
  | VStr _ | VNone => 0
  end.

(** The arithmetic sum of the inputs. *)
Definition total (inputs : list value) : Z :=
  fold_right (fun v acc => int_value v + acc) 0 inputs.

(** The number a string of binary digits denotes after the accumulator. *)
Fixpoint binary_number (acc : Z) (s : string) : Z :=
  match s with
  | EmptyString => acc
  | String c rest =>
      binary_number (2 * acc + (if Ascii.eqb c "1"%char then 1 else 0)) rest
  end.

(** The characters of an upper-case hexadecimal numeral. *)
Definition is_upper_hex (c : ascii) : bool :=
  let n := code c in
  ((48 <=? n) && (n <=? 57)) || ((65 <=? n) && (n <=? 70)).

Fixpoint all_chars (p : ascii -> bool) (s : string) : bool :=
  match s with
  | EmptyString => true
  | String c rest => p c && all_chars p rest
  end.

(** ** Properties of logic_gates.py *)

Section Gates.

(** C4: on the empty input sequence AND returns true, OR returns false and
    XOR returns false. *)
Theorem gates_on_empty_input :
  AND [] = true /\ OR [] = false /\ XOR [] = Return false.
Proof. repeat split. Qed.

Lemma sum_from_boolean (inputs : list value) :
  Forall (fun v => is_boolean v = true) inputs ->
  forall a, sum_from a inputs = Return (a + Z.of_nat (count_truthy inputs)).
Proof.
  unfold count_truthy.
  induction 1 as [| v rest Hv _ IH]; intro a; simpl.
  - f_equal. lia.
  - destruct v as [b | z | s |]; simpl in Hv; try discriminate.
    + simpl. rewrite IH. destruct b; simpl; f_equal; lia.
    + simpl. rewrite IH.
      apply orb_true_iff in Hv.
      destruct Hv as [Hz | Hz]; apply Z.eqb_eq in Hz; subst z; simpl;
        f_equal; lia.
Qed.

Lemma parity_of_count (n : nat) : (Z.of_nat n mod 2 =? 1) = Nat.odd n.
Proof.
  rewrite Zmod_odd.
  replace (Z.odd (Z.of_nat n)) with (Nat.odd n).
  - destruct (Nat.odd n); reflexivity.
  - induction n as [| n IH].
    + reflexivity.
    + rewrite Nat2Z.inj_succ, Z.odd_succ, Nat.odd_succ.
      rewrite <- Z.negb_odd, <- Nat.negb_odd, IH. reflexivity.
Qed.

(** C5 (as stated, refuted): the input [2] is truthy, so one input is
    truthy, but XOR adds the inputs up and answers false; the input ["a"]
    is truthy as well, and XOR raises a TypeError on it. *)
Lemma XOR_not_truthy_parity :
  XOR [VInt 2] = Return false /\
  Nat.odd (count_truthy [VInt 2]) = true /\
  (exists reason, XOR [VStr "a"] = Raise (TypeError reason)) /\
  Nat.odd (count_truthy [VStr "a"]) = true.
Proof.
  repeat split. eexists. reflexivity.
Qed.

(** C5 (amended): for every sequence of canonical booleans ([True],
    [False], [1], [0]) XOR returns, without raising, whether the number of
    truthy inputs is odd. *)
Theorem XOR_odd_parity_on_booleans (inputs : list value) :
  Forall (fun v => is_boolean v = true) inputs ->
  XOR inputs = Return (Nat.odd (count_truthy inputs)).
Proof.
  intro Hb. unfold XOR, sum.
  destruct inputs as [| v rest]; [reflexivity |].
  rewrite (sum_from_boolean _ Hb). cbn [bind Z.add].
  rewrite parity_of_count. reflexivity.
Qed.

Lemma XOR_odd_parity_on_booleans_witness :
  Forall (fun v => is_boolean v = true) [VBool true; VInt 1; VBool true] /\
  XOR [VBool true; VInt 1; VBool true] = Return true.
Proof.
  split.
  - repeat constructor.
  - apply (XOR_odd_parity_on_booleans [VBool true; VInt 1; VBool true]).
    repeat constructor.
Defined.

(** C6: NAND, NOR and XNOR are the negations of AND, OR and XOR on every
    input sequence: each is NOT applied to the result of its base gate, an
    exception of XOR passing through XNOR; in particular for two booleans. *)
Theorem derived_gates_negate_base (xs : list value) :
  NAND xs = NOT (VBool (AND xs)) /\
  NOR xs = NOT (VBool (OR xs)) /\
  XNOR xs = (r <- XOR xs ;; Return (NOT (VBool r))) /\
  NAND xs = negb (AND xs) /\
  NOR xs = negb (OR xs) /\
  (forall r, XOR xs = Return r -> XNOR xs = Return (negb r)) /\
  (forall e, XOR xs = Raise e -> XNOR xs = Raise e) /\
  (forall a b : bool,
      NAND [VBool a; VBool b] = NOT (VBool (AND [VBool a; VBool b])) /\
      NAND [VBool a; VBool b] = negb (a && b) /\
      NOR [VBool a; VBool b] = negb (a || b) /\
      XNOR [VBool a; VBool b] = Return (negb (xorb a b))).
Proof.
  repeat split; try reflexivity.
  - intros r Hr. unfold XNOR. rewrite Hr. reflexivity.
  - intros e He. unfold XNOR. rewrite He. reflexivity.
  - destruct a, b; reflexivity.
  - destruct a, b; reflexivity.
  - destruct a, b; reflexivity.
Qed.

End Gates.

(** ** Properties of number_systems.py *)

Section Conversions.

(** C9: [decimal_to_binary(255)] is ["11111111"] and [hex_to_binary("FF")]
    is ["11111111"]. *)
Theorem conversions_of_255 :
  decimal_to_binary 255 = "11111111"%string /\
  hex_to_binary "FF" = Return "11111111"%string.
Proof. split; reflexivity. Qed.

Lemma string_app_assoc (s t u : string) :
  ((s ++ t) ++ u = s ++ (t ++ u))%string.
Proof.
  induction s as [| c s IH]; simpl; [reflexivity | rewrite IH; reflexivity].
Qed.

Lemma string_app_nil_r (s : string) : (s ++ "" = s)%string.
Proof.
  induction s as [| c s IH]; simpl; [reflexivity | rewrite IH; reflexivity].
Qed.

Lemma binary_string_app (s t : string) :
  binary_string s -> binary_string t -> binary_string (s ++ t).
Proof.
  induction s as [| c s IH]; simpl; [tauto |].
  intros [Hc Hs] Ht. split; [exact Hc | exact (IH Hs Ht)].
Qed.

Lemma bin_digits_binary (p : positive) : binary_string (bin_digits p).
Proof.
  induction p as [q IH | q IH |]; simpl.
  - apply binary_string_app; simpl; tauto.
  - apply binary_string_app; simpl; tauto.
  - tauto.
Qed.

Lemma bin_digits_head (p : positive) :
  exists rest, bin_digits p = String "1" rest.
Proof.
  induction p as [q [rest IH] | q [rest IH] |]; simpl.
  - rewrite IH. eexists. reflexivity.
  - rewrite IH. eexists. reflexivity.
  - eexists. reflexivity.
Qed.

Lemma rstrip_binary (s : string) : binary_string s -> rstrip s = s.
Proof.
  induction s as [| c s IH]; simpl; [reflexivity |].
  intros [Hc Hs]. rewrite (IH Hs).
  destruct s; [| reflexivity].
  destruct Hc; subst c; reflexivity.
Qed.

(** Scanning binary digits shifts the accumulator and adds the number. *)
Lemma scan_bin_digits (p : positive) :
  forall acc rest,
    scan_digits 2 acc false (bin_digits p ++ rest) =
    scan_digits 2 (acc * 2 ^ Z.of_nat (Pos.size_nat p) + Zpos p) false rest.
Proof.
  induction p as [q IH | q IH |]; intros acc rest.
  - simpl bin_digits. rewrite string_app_assoc, IH.
    cbn [Pos.size_nat]. rewrite Nat2Z.inj_succ, Z.pow_succ_r by lia.
    cbn [append scan_digits is_underscore Ascii.eqb Bool.eqb digit_value].
    change (scan_digits 2 ((acc * 2 ^ Z.of_nat (Pos.size_nat q) + Zpos q) * 2 + 1)
              false rest = scan_digits 2 (acc * (2 * 2 ^ Z.of_nat (Pos.size_nat q))
                                           + Zpos q~1) false rest).
    f_equal. lia.
  - simpl bin_digits. rewrite string_app_assoc, IH.
    cbn [Pos.size_nat]. rewrite Nat2Z.inj_succ, Z.pow_succ_r by lia.
    change (scan_digits 2 ((acc * 2 ^ Z.of_nat (Pos.size_nat q) + Zpos q) * 2 + 0)
              false rest = scan_digits 2 (acc * (2 * 2 ^ Z.of_nat (Pos.size_nat q))
                                           + Zpos q~0) false rest).
    f_equal. lia.
  - change (scan_digits 2 (acc * 2 + 1) false rest =
            scan_digits 2 (acc * 2 ^ 1 + 1) false rest).
    f_equal.
Qed.

(** A literal that starts with the digit [1] and has no trailing space is
    scanned as it stands. *)
Lemma int_of_string_leading_one (rest : string) :
  rstrip (String "1" rest) = String "1" rest ->
  int_of_string 2 (String "1" rest) =
  scan_digits 2 0 false (String "1" rest).
Proof.
  intro Hr. unfold int_of_string, strip.
  change (lstrip (String "1" rest)) with (String "1" rest).
  rewrite Hr.
  change (skip_sign (String "1" rest)) with (1, String "1" rest).
  cbv iota beta.
  replace (skip_prefix 2 (String "1" rest)) with (String "1" rest)
    by (destruct rest; reflexivity).
  cbv iota beta.
  change (is_underscore "1") with false. cbv iota.
  destruct (scan_digits 2 0 false (String "1" rest)) as [n | e]; simpl.
  - f_equal. destruct n; reflexivity.
  - reflexivity.
Qed.

(** C10: for every [n >= 0], [binary_to_decimal(decimal_to_binary(n))] is
    [n]; [decimal_to_binary(0)] is the one-character string ["0"]. *)
Theorem binary_round_trip (n : Z) :
  0 <= n ->
  binary_to_decimal (decimal_to_binary n) = Return n /\
  decimal_to_binary 0 = "0"%string.
Proof.
  intro Hn. split; [| reflexivity].
  destruct n as [| p | p]; [reflexivity | | lia].
  unfold binary_to_decimal, decimal_to_binary.
  change (slice_from 2 (bin (Zpos p))) with (bin_digits p).
  cbn [Z.eqb].
  pose proof (rstrip_binary _ (bin_digits_binary p)) as Hr.
  destruct (bin_digits_head p) as [rest Hhead].
  rewrite Hhead in Hr. rewrite Hhead.
  rewrite (int_of_string_leading_one rest Hr).
  rewrite <- Hhead.
  rewrite <- (string_app_nil_r (bin_digits p)) at 1.
  rewrite scan_bin_digits. simpl. reflexivity.
Qed.

Lemma binary_round_trip_witness :
  0 <= 10 /\
  binary_to_decimal (decimal_to_binary 10) = Return 10 /\
  decimal_to_binary 0 = "0"%string.
Proof.
  split; [lia | apply (binary_round_trip 10); lia].
Defined.

End Conversions.

(** ** The enumeration of [itertools.product] *)

Section Products.

Context {A : Type}.
Variable pool : list A.

Lemma product_succ (n : nat) :
  product pool (S n) = extend pool (product pool n).
Proof.
  unfold product, extend.
  cbv zeta. change (repeat pool (S n)) with (pool :: repeat pool n).
  rewrite repeat_cons, fold_left_app. reflexivity.
Qed.

Lemma extend_map_cons (y : A) (l : list (list A)) :
  extend pool (map (cons y) l) = map (cons y) (extend pool l).
Proof.
  unfold extend. induction l as [| x l IH]; simpl; [reflexivity |].
  rewrite IH, map_app, map_map. reflexivity.
Qed.

Lemma extend_flat_map {B : Type} (g : B -> list (list A)) (l : list B) :
  extend pool (flat_map g l) = flat_map (fun y => extend pool (g y)) l.
Proof.
  unfold extend. induction l as [| b l IH]; simpl; [reflexivity |].
  rewrite flat_map_app, IH. reflexivity.
Qed.

Lemma extend_nested_loops (n : nat) :
  extend pool (nested_loops pool n) = nested_loops pool (S n).
Proof.
  induction n as [| n IH].
  - unfold extend. simpl. rewrite app_nil_r.
    induction pool as [| y l IHl]; simpl; [reflexivity | rewrite IHl; reflexivity].
  - change (nested_loops pool (S n))
      with (flat_map (fun y => map (cons y) (nested_loops pool n)) pool) at 1.
    rewrite extend_flat_map.
    change (nested_loops pool (S (S n)))
      with (flat_map (fun y => map (cons y) (nested_loops pool (S n))) pool).
    apply flat_map_ext. intro y.
    rewrite extend_map_cons, IH. reflexivity.
Qed.

(** [product] enumerates in the order of nested loops, the first position
    outermost. *)
Lemma product_nested_loops (n : nat) : product pool n = nested_loops pool n.
Proof.
  induction n as [| n IH]; [reflexivity |].
  rewrite product_succ, IH. apply extend_nested_loops.
Qed.

End Products.

Section BitTuples.

Lemma bit_tuples_succ (n : nat) :
  nested_loops [0; 1] (S n) =
  map (cons 0) (nested_loops [0; 1] n) ++ map (cons 1) (nested_loops [0; 1] n).
Proof. simpl. rewrite app_nil_r. reflexivity. Qed.

Lemma bit_tuples_length (n : nat) :
  List.length (product [0; 1] n) = (2 ^ n)%nat.
Proof.
  rewrite product_nested_loops.
  induction n as [| n IH]; [reflexivity |].
  rewrite bit_tuples_succ, length_app, !length_map, IH. simpl. lia.
Qed.

Lemma bit_tuples_shape (n : nat) :
  Forall (fun c => List.length c = n /\ Forall is_bit c) (product [0; 1] n).
Proof.
  rewrite product_nested_loops.
  induction n as [| n IH].
  - repeat constructor.
  - rewrite bit_tuples_succ. apply Forall_app.
    split; apply Forall_map; (eapply Forall_impl; [| exact IH]);
      intros c [Hlen Hbits]; simpl; (split; [congruence |]);
      constructor; unfold is_bit; auto.
Qed.

Lemma binary_value_snoc (bits : list Z) (b : Z) :
  binary_value (bits ++ [b]) = 2 * binary_value bits + b.
Proof. unfold binary_value. rewrite fold_left_app. reflexivity. Qed.

Lemma counter_double (m : nat) :
  flat_map (fun v => [2 * v; 2 * v + 1]) (map Z.of_nat (seq 0 m)) =
  map Z.of_nat (seq 0 (2 * m)).
Proof.
  induction m as [| m IH]; [reflexivity |].
  replace (2 * S m)%nat with (S (S (2 * m))) by lia.
  rewrite (seq_S m), (seq_S (S (2 * m))), (seq_S (2 * m)).
  rewrite !map_app, flat_map_app, IH, <- app_assoc.
  cbn [map flat_map app]. f_equal. f_equal; [lia | f_equal; lia].
Qed.

Lemma extend_binary_values (l : list (list Z)) :
  map binary_value (extend [0; 1] l) =
  flat_map (fun v => [2 * v; 2 * v + 1]) (map binary_value l).
Proof.
  unfold extend. induction l as [| x l IH]; [reflexivity |].
  cbn [flat_map map app] in *. rewrite IH, !binary_value_snoc.
  repeat (f_equal; try lia).
Qed.

(** The tuples count upwards from zero, read as binary numbers with the
    first position most significant. *)
Lemma bit_tuples_count (n : nat) :
  map binary_value (product [0; 1] n) = map Z.of_nat (seq 0 (2 ^ n)).
Proof.
  induction n as [| n IH]; [reflexivity |].
  rewrite product_succ, extend_binary_values, IH, counter_double.
  reflexivity.
Qed.

Lemma bit_tuples_NoDup (n : nat) : NoDup (product [0; 1] n).
Proof.
  apply (NoDup_map_inv binary_value). rewrite bit_tuples_count.
  apply Injective_map_NoDup; [| apply seq_NoDup].
  intros x y Hxy. apply Nat2Z.inj. exact Hxy.
Qed.

Lemma StronglySorted_app {T : Type} (R : T -> T -> Prop) (l1 l2 : list T) :
  StronglySorted R l1 -> StronglySorted R l2 ->
  (forall a b, In a l1 -> In b l2 -> R a b) ->
  StronglySorted R (l1 ++ l2).
Proof.
  intros H1 H2 Hcross.
  induction H1 as [| a l Hl IH Ha]; simpl; [exact H2 |].
  constructor.
  - apply IH. intros x y Hx Hy. apply Hcross; [right; exact Hx | exact Hy].
  - apply Forall_app. split; [exact Ha |].
    apply Forall_forall. intros y Hy. apply Hcross; [left; reflexivity | exact Hy].
Qed.

Lemma StronglySorted_map_cons (x : Z) (l : list (list Z)) :
  StronglySorted lex_lt l -> StronglySorted lex_lt (map (cons x) l).
Proof.
  induction 1 as [| a l Hl IH Ha]; simpl; constructor; [exact IH |].
  apply Forall_map. eapply Forall_impl; [| exact Ha].
  intros b Hab. apply lex_lt_tail. exact Hab.
Qed.

(** The tuples are strictly increasing in the lexicographic order. *)
Lemma bit_tuples_sorted (n : nat) :
  StronglySorted lex_lt (product [0; 1] n).
Proof.
  rewrite product_nested_loops.
  induction n as [| n IH].
  - repeat constructor.
  - rewrite bit_tuples_succ.
    apply StronglySorted_app; try (apply StronglySorted_map_cons; exact IH).
    intros a b Ha Hb.
    apply in_map_iff in Ha. destruct Ha as [a' [<- _]].
    apply in_map_iff in Hb. destruct Hb as [b' [<- _]].
    apply lex_lt_head. lia.
Qed.

End BitTuples.

(** ** Properties of truth_table.py *)

Section Tables.

Variable variables : list string.
Variable expression_func : callable.

Let num_vars : nat := List.length variables.

Lemma boolean_expr_total (n : nat) (f : callable) :
  boolean_expr n f -> total_expr n f.
Proof.
  intros Hb combo Hlen Hbits.
  destruct (Hb combo Hlen Hbits) as [b Hcall].
  exists (VBool b), (Z.b2z b). split; [exact Hcall | reflexivity].
Qed.

(** The loop of [generate_table] appends one row for each combination, in
    the order of the combinations. *)
Lemma for_each_rows (f : callable) (combos : list (list Z)) :
  Forall (fun combo => exists v r,
              call f (map VInt combo) = Return v /\ int_ v = Return r) combos ->
  forall init, exists rows,
    for_each combos
      (fun table combo =>
         result <- call f (map VInt combo) ;;
         r <- int_ result ;;
         Return (table ++ [combo ++ [r]]))
      init = Return (init ++ rows) /\
    Forall2 (row_for f) combos rows.
Proof.
  induction 1 as [| combo combos Hcombo _ IH]; intro init.
  - exists []. rewrite app_nil_r. split; [reflexivity | constructor].
  - destruct Hcombo as (v & r & Hcall & Hint).
    destruct (IH (init ++ [combo ++ [r]])) as (rows & Hloop & Hrows).
    exists ((combo ++ [r]) :: rows). split.
    + cbn [for_each]. rewrite Hcall. cbn [bind]. rewrite Hint. cbn [bind].
      rewrite Hloop, <- app_assoc. reflexivity.
    + constructor; [| exact Hrows].
      exists v, r. repeat split; assumption.
Qed.

Lemma inputs_of_rows (f : callable) (n : nat) (combos table : list (list Z)) :
  Forall2 (row_for f) combos table ->
  Forall (fun c => List.length c = n) combos ->
  inputs n table = combos.
Proof.
  unfold inputs.
  induction 1 as [| combo row combos table Hrow _ IH]; intro Hlen;
    [reflexivity |].
  inversion Hlen as [| ? ? Hc Hcs]; subst.
  destruct Hrow as (v & r & _ & _ & ->).
  cbn [map]. rewrite (IH Hcs). f_equal.
  rewrite firstn_app, Nat.sub_diag, firstn_all. cbn [firstn].
  apply app_nil_r.
Qed.

(** With a total expression the table has one row for each tuple of
    [product], in that order, and its input portion is that tuple. *)
Lemma generate_table_rows :
  total_expr num_vars expression_func ->
  exists table,
    generate_table variables expression_func = Return table /\
    Forall2 (row_for expression_func) (product [0; 1] num_vars) table /\
    inputs num_vars table = product [0; 1] num_vars.
Proof.
  intro Htotal.
  pose proof (bit_tuples_shape num_vars) as Hshape.
  assert (Hall : Forall (fun combo => exists v r,
                   call expression_func (map VInt combo) = Return v /\
                   int_ v = Return r) (product [0; 1] num_vars)).
  { eapply Forall_impl; [| exact Hshape].
    intros combo [Hlen Hbits]. exact (Htotal combo Hlen Hbits). }
  destruct (for_each_rows expression_func _ Hall []) as (table & Hloop & Hrows).
  exists table. split; [exact Hloop |]. split; [exact Hrows |].
  apply (inputs_of_rows expression_func); [exact Hrows |].
  eapply Forall_impl; [| exact Hshape]. intros c [Hlen _]. exact Hlen.
Qed.

(** A call that the signature refuses ends the loop at its first
    combination. *)
Lemma generate_table_rejects :
  accepts expression_func num_vars = false ->
  generate_table variables expression_func = Raise argument_mismatch.
Proof.
  intro Hacc. unfold generate_table. cbv zeta. fold num_vars.
  pose proof (bit_tuples_shape num_vars) as Hshape.
  pose proof (bit_tuples_length num_vars) as Hlen.
  destruct (product [0; 1] num_vars) as [| combo rest].
  - exfalso. simpl in Hlen. symmetry in Hlen. revert Hlen.
    apply Nat.pow_nonzero. discriminate.
  - inversion Hshape as [| ? ? [Hc _] _]; subst.
    cbn [for_each]. unfold call at 1.
    rewrite length_map, Hc, Hacc. reflexivity.
Qed.

End Tables.

Section TableClaims.

Lemma and_lambda_boolean : boolean_expr 2 and_lambda.
Proof.
  intros combo Hlen _.
  destruct combo as [| a [| b [| c rest]]]; try discriminate Hlen.
  eexists. reflexivity.
Qed.

Lemma not_lambda_boolean : boolean_expr 1 not_lambda.
Proof.
  intros combo Hlen _.
  destruct combo as [| a [| b rest]]; try discriminate Hlen.
  eexists. reflexivity.
Qed.

(** C1: for every number N of variable names and every expression of
    arity N, [generate_table] returns a list of exactly 2^N rows, no two of
    them equal. *)
Theorem generate_table_row_count (vars : list string) (f : callable) :
  total_expr (List.length vars) f ->
  exists table,
    generate_table vars f = Return table /\
    List.length table = (2 ^ List.length vars)%nat /\
    NoDup table.
Proof.
  intro Htotal.
  destruct (generate_table_rows vars f Htotal) as (table & Hgen & _ & Hin).
  exists table. split; [exact Hgen |]. split.
  - rewrite <- (length_map (firstn (List.length vars)) table).
    fold (inputs (List.length vars) table). rewrite Hin.
    apply bit_tuples_length.
  - apply (NoDup_map_inv (firstn (List.length vars))).
    fold (inputs (List.length vars) table). rewrite Hin.
    apply bit_tuples_NoDup.
Qed.

Lemma generate_table_row_count_witness :
  total_expr 2 and_lambda /\
  exists table,
    generate_table ["A"; "B"]%string and_lambda = Return table /\
    List.length table = 4%nat /\
    NoDup table.
Proof.
  split.
  - exact (boolean_expr_total 2 and_lambda and_lambda_boolean).
  - apply (generate_table_row_count ["A"; "B"]%string and_lambda).
    exact (boolean_expr_total 2 and_lambda and_lambda_boolean).
Defined.

(** C2: the rows appear in binary-counter order: the input portions are
    the tuples of N bits, they count 0, 1, ..., 2^N - 1 when read as binary
    numbers with the first variable most significant, they are strictly
    increasing in the lexicographic order with 0 before 1, which is the
    order of nested loops with the first variable outermost; for N = 2
    they are (0,0), (0,1), (1,0), (1,1). *)
Theorem generate_table_counter_order (vars : list string) (f : callable) :
  total_expr (List.length vars) f ->
  exists table,
    generate_table vars f = Return table /\
    Forall (fun c => List.length c = List.length vars /\ Forall is_bit c)
           (inputs (List.length vars) table) /\
    map binary_value (inputs (List.length vars) table) =
      map Z.of_nat (seq 0 (2 ^ List.length vars)) /\
    StronglySorted lex_lt (inputs (List.length vars) table) /\
    inputs (List.length vars) table = nested_loops [0; 1] (List.length vars) /\
    (List.length vars = 2%nat ->
     inputs 2 table = [[0; 0]; [0; 1]; [1; 0]; [1; 1]]).
Proof.
  intro Htotal.
  destruct (generate_table_rows vars f Htotal) as (table & Hgen & _ & Hin).
  exists table. split; [exact Hgen |].
  rewrite Hin. repeat split.
  - apply bit_tuples_shape.
  - apply bit_tuples_count.
  - apply bit_tuples_sorted.
  - apply product_nested_loops.
  - intro H2. rewrite H2 in Hin. rewrite Hin. reflexivity.
Qed.

Lemma generate_table_counter_order_witness :
  total_expr 2 and_lambda /\
  exists table,
    generate_table ["A"; "B"]%string and_lambda = Return table /\
    Forall (fun c => List.length c = 2%nat /\ Forall is_bit c) (inputs 2 table) /\
    map binary_value (inputs 2 table) = [0; 1; 2; 3] /\
    StronglySorted lex_lt (inputs 2 table) /\
    inputs 2 table = nested_loops [0; 1] 2 /\
    (2%nat = 2%nat -> inputs 2 table = [[0; 0]; [0; 1]; [1; 0]; [1; 1]]).
Proof.
  split.
  - exact (boolean_expr_total 2 and_lambda and_lambda_boolean).
  - apply (generate_table_counter_order ["A"; "B"]%string and_lambda).
    exact (boolean_expr_total 2 and_lambda and_lambda_boolean).
Defined.

(** C3: no two rows of the table have the same input portion: the first N
    entries of the rows are pairwise distinct. *)
Theorem generate_table_inputs_distinct (vars : list string) (f : callable) :
  total_expr (List.length vars) f ->
  exists table,
    generate_table vars f = Return table /\
    NoDup (inputs (List.length vars) table).
Proof.
  intro Htotal.
  destruct (generate_table_rows vars f Htotal) as (table & Hgen & _ & Hin).
  exists table. split; [exact Hgen |].
  rewrite Hin. apply bit_tuples_NoDup.
Qed.

Lemma generate_table_inputs_distinct_witness :
  total_expr 1 not_lambda /\
  exists table,
    generate_table ["A"]%string not_lambda = Return table /\
    NoDup (inputs 1 table).
Proof.
  split.
  - exact (boolean_expr_total 1 not_lambda not_lambda_boolean).
  - apply (generate_table_inputs_distinct ["A"]%string not_lambda).
    exact (boolean_expr_total 1 not_lambda not_lambda_boolean).
Defined.

(** C7: when the expression takes exactly k arguments and k is not the
    number of variable names, [generate_table] raises the argument-mismatch
    TypeError of the first call, whatever the body of the expression is; it
    returns no table. *)
Theorem generate_table_arity_mismatch
  (vars : list string) (f : callable) (k : nat) :
  fixed_arity f k ->
  k <> List.length vars ->
  generate_table vars f = Raise argument_mismatch /\
  (forall table, generate_table vars f <> Return table).
Proof.
  intros [Hmin Hmax] Hk.
  assert (Hgen : generate_table vars f = Raise argument_mismatch).
  { apply generate_table_rejects. unfold accepts. rewrite Hmin, Hmax.
    destruct (Nat.leb_spec k (List.length vars)) as [Hle | Hgt]; [| reflexivity].
    apply Nat.leb_gt. lia. }
  split; [exact Hgen |].
  intros table Htable. rewrite Hgen in Htable. discriminate Htable.
Qed.

Lemma generate_table_arity_mismatch_witness :
  fixed_arity and_lambda 2 /\
  2%nat <> List.length ["A"]%string /\
  generate_table ["A"]%string and_lambda = Raise argument_mismatch /\
  (forall table, generate_table ["A"]%string and_lambda <> Return table).
Proof.
  split; [split; reflexivity |].
  split; [discriminate |].
  apply (generate_table_arity_mismatch ["A"]%string and_lambda 2).
  - split; reflexivity.
  - discriminate.
Defined.

Lemma rows_of_total (f : callable) (n : nat) (combos table : list (list Z)) :
  Forall2 (row_for f) combos table ->
  Forall (fun c => List.length c = n /\ Forall is_bit c) combos ->
  Forall2 (fun combo row =>
             List.length combo = n /\ Forall is_bit combo /\
             exists v r,
               call f (map VInt combo) = Return v /\
               int_ v = Return r /\
               row = combo ++ [r] /\
               (is_boolean v = true -> r = Z.b2z (truthy v) /\ is_bit r))
          combos table.
Proof.
  induction 1 as [| combo row combos' table' Hrow _ IH]; intro Hshape;
    [constructor |].
  apply Forall_cons_iff in Hshape. destruct Hshape as [[Hlen Hbits] Hrest].
  constructor; [| exact (IH Hrest)].
  destruct Hrow as (v & r & Hcall & Hint & ->).
  split; [exact Hlen |]. split; [exact Hbits |].
  exists v, r.
  split; [exact Hcall |]. split; [exact Hint |]. split; [reflexivity |].
  intro Hb.
  destruct v as [b | z | s |]; try discriminate Hb;
    cbn [int_] in Hint; injection Hint as <-.
  - split; [reflexivity |]. destruct b; [right | left]; reflexivity.
  - cbn [is_boolean] in Hb. apply orb_true_iff in Hb.
    destruct Hb as [Hz | Hz]; apply Z.eqb_eq in Hz; subst z;
      (split; [reflexivity |]); [left | right]; reflexivity.
Qed.

(** C8 (as stated, refuted): the expression [lambda a, b: a + b] has the
    matching arity 2, and the row of the inputs (1, 1) ends in 2, which is
    neither 0 nor 1. *)
Lemma generate_table_row_not_bit :
  let add_lambda :=
    {| min_args := 2; max_args := Some 2%nat;
       body := fun args =>
                 match args with
                 | [VInt a; VInt b] => Return (VInt (a + b))
                 | _ => Raise (TypeError "unsupported operand type(s) for +")
                 end |} in
  fixed_arity add_lambda 2 /\
  generate_table ["A"; "B"]%string add_lambda =
    Return [[0; 0; 0]; [0; 1; 1]; [1; 0; 1]; [1; 1; 2]] /\
  ~ is_bit 2.
Proof.
  repeat split. intros [H | H]; discriminate H.
Qed.

(** C8 (amended): for every expression of matching arity whose result on
    each tuple of N bits [int] converts, [generate_table] returns one row
    for each tuple of the enumeration, 2^N in all and in its order; each
    row is the tuple of N input bits followed by [int] of the result of
    the expression on it, and that last entry is 0 or 1, the truth value
    of the result, whenever the result is a [bool] or the integer 0
    or 1. *)
Theorem generate_table_row_shape (vars : list string) (f : callable) :
  total_expr (List.length vars) f ->
  exists table,
    generate_table vars f = Return table /\
    List.length table = (2 ^ List.length vars)%nat /\
    Forall2 (fun combo row =>
               List.length combo = List.length vars /\ Forall is_bit combo /\
               exists v r,
                 call f (map VInt combo) = Return v /\
                 int_ v = Return r /\
                 row = combo ++ [r] /\
                 (is_boolean v = true -> r = Z.b2z (truthy v) /\ is_bit r))
            (product [0; 1] (List.length vars)) table.
Proof.
  intro Htotal.
  destruct (generate_table_rows vars f Htotal) as (table & Hgen & Hrows & _).
  exists table. split; [exact Hgen |]. split.
  - rewrite <- (Forall2_length Hrows). apply bit_tuples_length.
  - exact (rows_of_total f _ _ table Hrows (bit_tuples_shape _)).
Qed.

Lemma generate_table_row_shape_witness :
  let id_lambda :=
    {| min_args := 1; max_args := Some 1%nat;
       body := fun args => Return (hd VNone args) |} in
  total_expr 1 id_lambda /\
  exists table,
    generate_table ["A"]%string id_lambda = Return table /\
    List.length table = 2%nat /\
    Forall2 (fun combo row =>
               List.length combo = 1%nat /\ Forall is_bit combo /\
               exists v r,
                 call id_lambda (map VInt combo) = Return v /\
                 int_ v = Return r /\
                 row = combo ++ [r] /\
                 (is_boolean v = true -> r = Z.b2z (truthy v) /\ is_bit r))
            (product [0; 1] 1) table.
Proof.
  intro id_lambda.
  assert (Htotal : total_expr 1 id_lambda).
  { intros combo Hlen _.
    destruct combo as [| a [| b rest]]; try discriminate Hlen.
    exists (VInt a), a. split; reflexivity. }
  split; [exact Htotal |].
  exact (generate_table_row_shape ["A"]%string id_lambda Htotal).
Defined.

End TableClaims.

(** ** Further properties of logic_gates.py *)

Section GateAlgebra.

Lemma AND_forallb (xs : list value) : AND xs = forallb truthy xs.
Proof. destruct xs; reflexivity. Qed.

Lemma OR_existsb (xs : list value) : OR xs = existsb truthy xs.
Proof. destruct xs; reflexivity. Qed.

(** AND of a concatenation is the conjunction of the ANDs and OR of a
    concatenation the disjunction of the ORs, an empty part included: the
    values on the empty input are the neutral elements. *)
Theorem AND_OR_concatenation (xs ys : list value) :
  AND (xs ++ ys) = AND xs && AND ys /\
  OR (xs ++ ys) = OR xs || OR ys.
Proof.
  rewrite !AND_forallb, !OR_existsb. split.
  - apply forallb_app.
  - apply existsb_app.
Qed.

(** De Morgan: NAND of the inputs is OR of their negations and NOR of the
    inputs is AND of their negations. *)
Theorem De_Morgan_gates (xs : list value) :
  NAND xs = OR (map (fun x => VBool (NOT x)) xs) /\
  NOR xs = AND (map (fun x => VBool (NOT x)) xs).
Proof.
  unfold NAND, NOR, NOT. cbn [truthy].
  rewrite !AND_forallb, !OR_existsb.
  induction xs as [| x xs [IHn IHo]]; [split; reflexivity |].
  cbn [map forallb existsb truthy]. rewrite <- IHn, <- IHo.
  split; [apply negb_andb | apply negb_orb].
Qed.

(** AND and OR do not depend on the order of their inputs. *)
Theorem AND_OR_order_irrelevant (xs ys : list value) :
  Permutation xs ys ->
  AND xs = AND ys /\ OR xs = OR ys.
Proof.
  rewrite !AND_forallb, !OR_existsb.
  induction 1 as [| x l l' _ [IHa IHo] | x y l | l l' l'' _ [IH1a IH1o] _ [IH2a IH2o]];
    cbn [forallb existsb].
  - split; reflexivity.
  - rewrite IHa, IHo. split; reflexivity.
  - split.
    + destruct (truthy x), (truthy y); reflexivity.
    + destruct (truthy x), (truthy y); reflexivity.
  - split; [rewrite IH1a; exact IH2a | rewrite IH1o; exact IH2o].
Qed.

Lemma AND_OR_order_irrelevant_witness :
  Permutation [VInt 1; VStr ""; VNone] [VNone; VInt 1; VStr ""] /\
  AND [VInt 1; VStr ""; VNone] = AND [VNone; VInt 1; VStr ""] /\
  OR [VInt 1; VStr ""; VNone] = OR [VNone; VInt 1; VStr ""].
Proof.
  assert (Hp : Permutation [VInt 1; VStr ""; VNone] [VNone; VInt 1; VStr ""]).
  { apply Permutation_sym.
    apply (Permutation_cons_app [VInt 1; VStr ""] [] VNone).
    rewrite app_nil_r. apply Permutation_refl. }
  split; [exact Hp |].
  exact (AND_OR_order_irrelevant _ _ Hp).
Defined.

Lemma sum_from_numeric (xs : list value) :
  Forall (fun v => is_numeric v = true) xs ->
  forall a, sum_from a xs = Return (a + total xs).
Proof.
  induction 1 as [| v rest Hv _ IH]; intro a; cbn [sum_from total fold_right].
  - f_equal. lia.
  - destruct v as [b | z | s |]; try discriminate Hv;
      cbn [add_int bind int_value]; rewrite IH; f_equal; unfold total; lia.
Qed.

Lemma sum_from_rejects (xs : list value) :
  Exists (fun v => is_numeric v = false) xs ->
  forall a, exists reason, sum_from a xs = Raise (TypeError reason).
Proof.
  induction 1 as [v rest Hv | v rest _ IH]; intro a; cbn [sum_from].
  - destruct v as [b | z | s |]; try discriminate Hv;
      cbn [add_int bind]; eexists; reflexivity.
  - destruct v as [b | z | s |]; cbn [add_int bind];
      try apply IH; eexists; reflexivity.
Qed.

Lemma odd_as_mod (z : Z) : (z mod 2 =? 1) = Z.odd z.
Proof. rewrite Zmod_odd. destruct (Z.odd z); reflexivity. Qed.

(** On [bool] and [int] inputs XOR never raises and returns the parity of
    the arithmetic sum of the inputs, so an input [2] counts as even and an
    input [3] or [-1] as odd. *)
Theorem XOR_parity_of_sum (xs : list value) :
  Forall (fun v => is_numeric v = true) xs ->
  XOR xs = Return (Z.odd (total xs)).
Proof.
  intro Hn. unfold XOR, sum.
  destruct xs as [| v rest]; [reflexivity |].
  rewrite (sum_from_numeric _ Hn). cbn [bind Z.add].
  rewrite odd_as_mod. reflexivity.
Qed.

Lemma XOR_parity_of_sum_witness :
  Forall (fun v => is_numeric v = true) [VInt 2; VBool true; VInt (-3)] /\
  XOR [VInt 2; VBool true; VInt (-3)] = Return false.
Proof.
  split.
  - repeat constructor.
  - apply (XOR_parity_of_sum [VInt 2; VBool true; VInt (-3)]).
    repeat constructor.
Defined.

(** Among inputs that are [bool], [int], [str] or [None]: as soon as one
    input is a [str] or [None], wherever it stands and whatever the other
    inputs are, XOR raises a TypeError and returns no result. *)
Theorem XOR_raises_on_non_numeric (xs : list value) :
  Exists (fun v => is_numeric v = false) xs ->
  (exists reason, XOR xs = Raise (TypeError reason)) /\
  (forall r, XOR xs <> Return r).
Proof.
  intro Hex.
  assert (Hr : exists reason, XOR xs = Raise (TypeError reason)).
  { unfold XOR, sum. destruct xs as [| v rest]; [inversion Hex |].
    destruct (sum_from_rejects _ Hex 0) as [reason Hr].
    rewrite Hr. eexists. reflexivity. }
  split; [exact Hr |].
  destruct Hr as [reason Hr]. intros r Hret.
  rewrite Hr in Hret. discriminate Hret.
Qed.

Lemma XOR_raises_on_non_numeric_witness :
  Exists (fun v => is_numeric v = false) [VBool true; VInt 1; VStr "1"] /\
  (exists reason, XOR [VBool true; VInt 1; VStr "1"] = Raise (TypeError reason)) /\
  (forall r, XOR [VBool true; VInt 1; VStr "1"] <> Return r).
Proof.
  assert (Hex : Exists (fun v => is_numeric v = false)
                  [VBool true; VInt 1; VStr "1"]).
  { apply Exists_cons_tl, Exists_cons_tl, Exists_cons_hd. reflexivity. }
  split; [exact Hex |].
  exact (XOR_raises_on_non_numeric [VBool true; VInt 1; VStr "1"] Hex).
Defined.

(** XOR of a concatenation of [bool] and [int] inputs is the exclusive or
    of the XORs of the two parts. *)
Theorem XOR_concatenation (xs ys : list value) :
  Forall (fun v => is_numeric v = true) xs ->
  Forall (fun v => is_numeric v = true) ys ->
  exists a b,
    XOR xs = Return a /\ XOR ys = Return b /\
    XOR (xs ++ ys) = Return (xorb a b).
Proof.
  intros Hx Hy.
  assert (Hxy : Forall (fun v => is_numeric v = true) (xs ++ ys))
    by (apply Forall_app; split; assumption).
  assert (Hodd : forall l, Forall (fun v => is_numeric v = true) l ->
                           XOR l = Return (Z.odd (total l))).
  { intros l Hl. unfold XOR, sum. destruct l as [| v rest]; [reflexivity |].
    rewrite (sum_from_numeric _ Hl). cbn [bind Z.add].
    rewrite odd_as_mod. reflexivity. }
  exists (Z.odd (total xs)), (Z.odd (total ys)).
  rewrite (Hodd _ Hx), (Hodd _ Hy), (Hodd _ Hxy).
  repeat split. f_equal.
  unfold total. rewrite fold_right_app.
  fold (total ys). 
  assert (Hsum : forall l acc,
             fold_right (fun v a => int_value v + a) acc l = total l + acc).
  { induction l as [| v l IH]; intro acc; cbn [fold_right total]; [lia |].
    rewrite IH. unfold total. cbn [fold_right]. lia. }
  rewrite Hsum. fold (total xs). apply Z.odd_add.
Qed.

Lemma XOR_concatenation_witness :
  Forall (fun v => is_numeric v = true) [VBool true; VInt 1] /\
  Forall (fun v => is_numeric v = true) [VInt 1] /\
  exists a b,
    XOR [VBool true; VInt 1] = Return a /\ XOR [VInt 1] = Return b /\
    XOR ([VBool true; VInt 1] ++ [VInt 1]) = Return (xorb a b).
Proof.
  split; [repeat constructor |]. split; [repeat constructor |].
  apply (XOR_concatenation [VBool true; VInt 1] [VInt 1]); repeat constructor.
Defined.

(** On [bool] and [int] inputs XOR does not depend on the order of its
    inputs. *)
Theorem XOR_order_irrelevant (xs ys : list value) :
  Permutation xs ys ->
  Forall (fun v => is_numeric v = true) xs ->
  XOR xs = XOR ys.
Proof.
  intros Hp Hx.
  assert (Hy : Forall (fun v => is_numeric v = true) ys).
  { rewrite Forall_forall in *. intros v Hv. apply Hx.
    apply (Permutation_in v (Permutation_sym Hp) Hv). }
  assert (Htot : total xs = total ys).
  { clear Hx Hy. unfold total.
    induction Hp as [| x l l' _ IH | x y l | l l' l'' _ IH1 _ IH2];
      cbn [fold_right]; lia. }
  assert (Hodd : forall l, Forall (fun v => is_numeric v = true) l ->
                           XOR l = Return (Z.odd (total l))).
  { intros l Hl. unfold XOR, sum. destruct l as [| v rest]; [reflexivity |].
    rewrite (sum_from_numeric _ Hl). cbn [bind Z.add].
    rewrite odd_as_mod. reflexivity. }
  rewrite (Hodd _ Hx), (Hodd _ Hy), Htot. reflexivity.
Qed.

Lemma XOR_order_irrelevant_witness :
  Permutation [VInt 1; VBool false; VInt 2] [VInt 2; VInt 1; VBool false] /\
  Forall (fun v => is_numeric v = true) [VInt 1; VBool false; VInt 2] /\
  XOR [VInt 1; VBool false; VInt 2] = XOR [VInt 2; VInt 1; VBool false].
Proof.
  assert (Hp : Permutation [VInt 1; VBool false; VInt 2]
                 [VInt 2; VInt 1; VBool false]).
  { apply Permutation_sym.
    apply (Permutation_cons_app [VInt 1; VBool false] [] (VInt 2)).
    rewrite app_nil_r. apply Permutation_refl. }
  assert (Hn : Forall (fun v => is_numeric v = true)
                 [VInt 1; VBool false; VInt 2]) by (repeat constructor).
  split; [exact Hp |]. split; [exact Hn |].
  exact (XOR_order_irrelevant _ _ Hp Hn).
Defined.

(** On canonical booleans XNOR returns whether the number of truthy inputs
    is even. *)
Theorem XNOR_even_parity_on_booleans (xs : list value) :
  Forall (fun v => is_boolean v = true) xs ->
  XNOR xs = Return (Nat.even (count_truthy xs)).
Proof.
  intro Hb. unfold XNOR, XOR, sum.
  destruct xs as [| v rest]; [reflexivity |].
  rewrite (sum_from_boolean _ Hb). cbn [bind Z.add].
  rewrite parity_of_count. unfold NOT. cbn [truthy].
  rewrite Nat.negb_odd. reflexivity.
Qed.

Lemma XNOR_even_parity_on_booleans_witness :
  Forall (fun v => is_boolean v = true) [VBool true; VInt 0; VInt 1] /\
  XNOR [VBool true; VInt 0; VInt 1] = Return true.
Proof.
  split.
  - repeat constructor.
  - apply (XNOR_even_parity_on_booleans [VBool true; VInt 0; VInt 1]).
    repeat constructor.
Defined.

End GateAlgebra.

(** ** Further properties of number_systems.py *)

Section BinaryStrings.

Lemma string_length_app (s t : string) :
  String.length (s ++ t) = (String.length s + String.length t)%nat.
Proof.
  induction s as [| c s IH]; simpl; [reflexivity | rewrite IH; reflexivity].
Qed.

Lemma repeat_char_length (c : ascii) (n : nat) :
  String.length (repeat_char c n) = n.
Proof.
  induction n as [| n IH]; simpl; [reflexivity | rewrite IH; reflexivity].
Qed.

Lemma scan_binary (s : string) :
  binary_string s ->
  forall acc, scan_digits 2 acc false s = Return (binary_number acc s).
Proof.
  induction s as [| c s IH]; intros Hb acc; [reflexivity |].
  destruct Hb as [[-> | ->] Hs].
  - change (scan_digits 2 (acc * 2 + 0) false s = Return (binary_number (2 * acc + 0) s)).
    rewrite (IH Hs). f_equal. f_equal. lia.
  - change (scan_digits 2 (acc * 2 + 1) false s = Return (binary_number (2 * acc + 1) s)).
    rewrite (IH Hs). f_equal. f_equal. lia.
Qed.

(** [int(s, 2)] on a non-empty string of binary digits is its number. *)
Lemma int_of_string_binary (s : string) :
  binary_string s -> s <> EmptyString ->
  int_of_string 2 s = Return (binary_number 0 s).
Proof.
  intros Hb Hne.
  pose proof (rstrip_binary s Hb) as Hr.
  pose proof (scan_binary s Hb 0) as Hs.
  destruct s as [| c s']; [contradiction Hne; reflexivity |].
  destruct Hb as [Hc Hb'].
  unfold int_of_string, strip.
  replace (lstrip (String c s')) with (String c s')
    by (destruct Hc; subst c; reflexivity).
  rewrite Hr.
  replace (skip_sign (String c s')) with (1, String c s')
    by (destruct Hc; subst c; reflexivity).
  cbv iota beta zeta.
  replace (skip_prefix 2 (String c s')) with (String c s').
  2:{ destruct Hc; subst c; [| destruct s'; reflexivity].
      destruct s' as [| c2 s'']; [reflexivity |].
      destruct Hb' as [[-> | ->] _]; reflexivity. }
  replace (is_underscore c) with false by (destruct Hc; subst c; reflexivity).
  rewrite Hs. cbn [bind].
  change (negb (is_power_of_two 2)) with false. cbn [andb].
  rewrite Z.mul_1_l. reflexivity.
Qed.

Lemma binary_number_app (s t : string) :
  forall acc, binary_number acc (s ++ t) = binary_number (binary_number acc s) t.
Proof.
  induction s as [| c s IH]; intro acc; simpl; [reflexivity | apply IH].
Qed.


Lemma binary_number_bin_digits (p : positive) :
  binary_number 0 (bin_digits p) = Zpos p.
Proof.
  induction p as [q IH | q IH |]; [| | reflexivity];
    cbn [bin_digits]; rewrite binary_number_app, IH; reflexivity.
Qed.

Lemma binary_number_bounds (s : string) :
  forall acc, 0 <= acc ->
    acc * 2 ^ Z.of_nat (String.length s) <= binary_number acc s
    < (acc + 1) * 2 ^ Z.of_nat (String.length s).
Proof.
  induction s as [| c s IH]; intros acc Hacc.
  - cbn [String.length binary_number]. change (2 ^ Z.of_nat 0) with 1. lia.
  - cbn [String.length binary_number]. rewrite Nat2Z.inj_succ, Z.pow_succ_r by lia.
    assert (Hpos : 0 < 2 ^ Z.of_nat (String.length s)) by (apply Z.pow_pos_nonneg; lia).
    destruct (Ascii.eqb c "1").
    + specialize (IH (2 * acc + 1) ltac:(lia)). nia.
    + specialize (IH (2 * acc + 0) ltac:(lia)). nia.
Qed.

Lemma bin_digits_length (p : positive) :
  String.length (bin_digits p) = Pos.size_nat p.
Proof.
  induction p as [q IH | q IH |]; [| | reflexivity];
    cbn [bin_digits Pos.size_nat]; rewrite string_length_app, IH;
    cbn [String.length]; lia.
Qed.

Lemma size_nat_log2 (p : positive) :
  Z.of_nat (Pos.size_nat p) = Z.log2 (Zpos p) + 1.
Proof.
  assert (Hsize : forall q, Z.of_nat (Pos.size_nat q) = Zpos (Pos.size q)).
  { induction q as [q IH | q IH |]; [| | reflexivity];
      cbn [Pos.size_nat Pos.size]; rewrite Nat2Z.inj_succ, IH; lia. }
  destruct p as [q | q |]; [| | reflexivity];
    cbn [Pos.size_nat Z.log2]; rewrite Nat2Z.inj_succ, Hsize; lia.
Qed.

Lemma decimal_to_binary_binary (n : Z) :
  0 <= n ->
  binary_string (decimal_to_binary n) /\ decimal_to_binary n <> EmptyString.
Proof.
  intro Hn. destruct n as [| p | p]; [| | lia].
  - split; [simpl; tauto | discriminate].
  - change (decimal_to_binary (Zpos p)) with (bin_digits p).
    split; [apply bin_digits_binary |].
    destruct (bin_digits_head p) as [rest ->]. discriminate.
Qed.

(** A positive number is written without leading zero, in binary digits
    only, and with as many digits as it has bits. *)
Theorem decimal_to_binary_shape (n : Z) :
  0 < n ->
  binary_string (decimal_to_binary n) /\
  (exists rest, decimal_to_binary n = String "1" rest) /\
  Z.of_nat (String.length (decimal_to_binary n)) = Z.log2 n + 1.
Proof.
  intro Hn. destruct n as [| p | p]; try lia.
  change (decimal_to_binary (Zpos p)) with (bin_digits p).
  split; [apply bin_digits_binary |].
  split; [apply bin_digits_head |].
  rewrite bin_digits_length. apply size_nat_log2.
Qed.

Lemma decimal_to_binary_shape_witness :
  0 < 10 /\
  binary_string (decimal_to_binary 10) /\
  (exists rest, decimal_to_binary 10 = String "1" rest) /\
  Z.of_nat (String.length (decimal_to_binary 10)) = Z.log2 10 + 1.
Proof.
  split; [lia | apply (decimal_to_binary_shape 10); lia].
Defined.

(** [binary_to_decimal] accepts every non-empty string of binary digits,
    leading zeros included, and returns a number below 2 to the power of
    the length of the string. *)
Theorem binary_to_decimal_accepts_digits (s : string) :
  binary_string s -> s <> EmptyString ->
  exists n, binary_to_decimal s = Return n /\
            0 <= n < 2 ^ Z.of_nat (String.length s).
Proof.
  intros Hb Hne. exists (binary_number 0 s).
  split; [exact (int_of_string_binary s Hb Hne) |].
  pose proof (binary_number_bounds s 0 ltac:(lia)). lia.
Qed.

Lemma binary_to_decimal_accepts_digits_witness :
  binary_string "0010" /\ "0010"%string <> EmptyString /\
  exists n, binary_to_decimal "0010" = Return n /\
            0 <= n < 2 ^ Z.of_nat (String.length "0010").
Proof.
  split; [simpl; tauto |]. split; [discriminate |].
  apply (binary_to_decimal_accepts_digits "0010"); [simpl; tauto | discriminate].
Defined.

End BinaryStrings.

Section Padding.







End Padding.

Section NegativeNumbers.

Lemma rstrip_cons_kept (c : ascii) (s : string) :
  is_space c = false -> rstrip s = s -> rstrip (String c s) = String c s.
Proof.
  intros Hc Hs. cbn [rstrip]. rewrite Hs, Hc. destruct s; reflexivity.
Qed.

(** For a negative number the slice that drops the prefix of [bin] drops
    the sign and keeps the letter: the result is the letter [b] followed by
    the numeral of the absolute value, and [binary_to_decimal] refuses it
    with a ValueError, so the round trip holds for no negative number. *)
Theorem decimal_to_binary_negative (n : Z) :
  n < 0 ->
  decimal_to_binary n = String "b" (decimal_to_binary (- n)) /\
  binary_to_decimal (decimal_to_binary n) = Raise invalid_literal.
Proof.
  intro Hn. destruct n as [| p | p]; try lia.
  change (decimal_to_binary (Zneg p)) with (String "b" (bin_digits p)).
  change (decimal_to_binary (- Zneg p)) with (bin_digits p).
  split; [reflexivity |].
  unfold binary_to_decimal, int_of_string, strip.
  change (lstrip (String "b" (bin_digits p))) with (String "b" (bin_digits p)).
  rewrite (rstrip_cons_kept "b" _ eq_refl (rstrip_binary _ (bin_digits_binary p))).
  destruct (bin_digits_head p) as [rest ->]. reflexivity.
Qed.

Lemma decimal_to_binary_negative_witness :
  -5 < 0 /\
  decimal_to_binary (-5) = String "b" (decimal_to_binary (- -5)) /\
  binary_to_decimal (decimal_to_binary (-5)) = Raise invalid_literal.
Proof.
  split; [lia | apply (decimal_to_binary_negative (-5)); lia].
Defined.

(** [binary_to_decimal] itself reads a minus sign: the numeral of a
    non-negative number with a minus sign in front converts to the
    opposite number. *)
Theorem binary_to_decimal_signed (n : Z) :
  0 <= n ->
  binary_to_decimal (String "-" (decimal_to_binary n)) = Return (- n).
Proof.
  intro Hn.
  destruct (decimal_to_binary_binary n Hn) as [Hb Hne].
  assert (Hval : binary_number 0 (decimal_to_binary n) = n).
  { destruct n as [| p | p]; [reflexivity | | lia].
    exact (binary_number_bin_digits p). }
  pose proof (int_of_string_binary _ Hb Hne) as Hplain.
  pose proof (rstrip_binary _ Hb) as Hr.
  unfold binary_to_decimal, int_of_string, strip in *.
  change (lstrip (String "-" (decimal_to_binary n)))
    with (String "-" (decimal_to_binary n)).
  rewrite (rstrip_cons_kept "-" _ eq_refl Hr).
  change (skip_sign (String "-" (decimal_to_binary n)))
    with (-1, decimal_to_binary n).
  destruct (decimal_to_binary n) as [| c rest] eqn:Hd;
    [contradiction Hne; reflexivity |].
  replace (lstrip (String c rest)) with (String c rest) in Hplain
    by (destruct Hb as [[-> | ->] _]; reflexivity).
  rewrite Hr in Hplain.
  replace (skip_sign (String c rest)) with (1, String c rest) in Hplain
    by (destruct Hb as [[-> | ->] _]; reflexivity).
  cbv iota beta zeta in *.
  destruct (skip_prefix 2 (String c rest)) as [| d digits];
    [discriminate Hplain |].
  destruct (is_underscore d); [discriminate Hplain |].
  destruct (scan_digits 2 0 false (String d digits)) as [m | e];
    [| discriminate Hplain].
  cbn [bind] in *.
  change (negb (is_power_of_two 2)) with false in *. cbn [andb] in *.
  assert (Hm : 1 * m = n) by (rewrite <- Hval; congruence).
  f_equal. lia.
Qed.

Lemma binary_to_decimal_signed_witness :
  0 <= 6 /\ binary_to_decimal (String "-" (decimal_to_binary 6)) = Return (-6).
Proof.
  split; [lia | apply (binary_to_decimal_signed 6); lia].
Defined.

End NegativeNumbers.

Section Hexadecimal.

Lemma upper_hex_facts (c : ascii) :
  is_upper_hex c = true ->
  is_space c = false /\ is_underscore c = false /\
  Ascii.eqb c "+" = false /\ Ascii.eqb c "-" = false /\
  is_prefix_letter 16 c = false /\
  exists d, digit_value c = Some d /\ (d <? 16) = true.
Proof.
  destruct c as [[] [] [] [] [] [] [] []]; vm_compute; intro H;
    try discriminate H; repeat split; eexists; split; reflexivity.
Qed.

Lemma hex_digit_facts (d : Z) :
  0 <= d < 16 ->
  is_upper_hex (upper_char (digit_char d)) = true /\
  digit_value (upper_char (digit_char d)) = Some d.
Proof.
  intro Hd.
  assert (Hcases : d = 0 \/ d = 1 \/ d = 2 \/ d = 3 \/ d = 4 \/ d = 5 \/ d = 6
                   \/ d = 7 \/ d = 8 \/ d = 9 \/ d = 10 \/ d = 11 \/ d = 12
                   \/ d = 13 \/ d = 14 \/ d = 15) by lia.
  repeat (destruct Hcases as [-> | Hcases]; [split; reflexivity |]).
  subst d. split; reflexivity.
Qed.

Lemma upper_app (s t : string) : upper (s ++ t) = (upper s ++ upper t)%string.
Proof.
  induction s as [| c s IH]; simpl; [reflexivity | rewrite IH; reflexivity].
Qed.

Lemma all_chars_app (p : ascii -> bool) (s t : string) :
  all_chars p (s ++ t) = all_chars p s && all_chars p t.
Proof.
  induction s as [| c s IH]; simpl; [reflexivity |].
  rewrite IH. apply andb_assoc.
Qed.

Lemma digits_fuel_upper_hex (fuel : nat) :
  forall n, 0 <= n ->
    all_chars is_upper_hex (upper (digits_fuel fuel 16 n)) = true.
Proof.
  induction fuel as [| f IH]; intros n Hn; [reflexivity |].
  cbn [digits_fuel]. destruct (Z.ltb_spec n 16) as [Hlt | Hge].
  - cbn [upper all_chars].
    destruct (hex_digit_facts n ltac:(lia)) as [-> _]. reflexivity.
  - rewrite upper_app, all_chars_app.
    rewrite (IH (n / 16)) by (apply Z.div_pos; lia).
    cbn [upper all_chars].
    destruct (hex_digit_facts (n mod 16)) as [-> _];
      [apply Z.mod_pos_bound; lia | reflexivity].
Qed.

Lemma digits_fuel_nonempty (f : nat) (n : Z) :
  upper (digits_fuel (S f) 16 n) <> EmptyString.
Proof.
  cbn [digits_fuel]. destruct (n <? 16); [discriminate |].
  rewrite upper_app.
  destruct (upper (digits_fuel f 16 (n / 16))); discriminate.
Qed.

(** Scanning the digits written for [n] yields [n] back. *)
Lemma scan_digits_fuel (fuel : nat) :
  forall n, 0 <= n < 16 ^ Z.of_nat fuel ->
    forall rest,
      scan_digits 16 0 false (upper (digits_fuel fuel 16 n) ++ rest) =
      scan_digits 16 n false rest.
Proof.
  induction fuel as [| f IH]; intros n Hn rest.
  - change (16 ^ Z.of_nat 0) with 1 in Hn.
    replace n with 0 by lia. reflexivity.
  - cbn [digits_fuel]. destruct (Z.ltb_spec n 16) as [Hlt | Hge].
    + cbn [upper append scan_digits].
      destruct (hex_digit_facts n ltac:(lia)) as [Hup Hval].
      destruct (upper_hex_facts _ Hup) as (_ & -> & _).
      rewrite Hval.
      replace (n <? 16) with true by (symmetry; apply Z.ltb_lt; lia).
      f_equal.
    + rewrite upper_app, string_app_assoc.
      rewrite Nat2Z.inj_succ, Z.pow_succ_r in Hn by lia.
      assert (Hq : 0 <= n / 16 < 16 ^ Z.of_nat f).
      { split; [apply Z.div_pos; lia |].
        apply Z.div_lt_upper_bound; lia. }
      rewrite (IH (n / 16) Hq).
      cbn [upper append scan_digits].
      assert (Hm : 0 <= n mod 16 < 16) by (apply Z.mod_pos_bound; lia).
      destruct (hex_digit_facts _ Hm) as [Hup Hval].
      destruct (upper_hex_facts _ Hup) as (_ & -> & _).
      rewrite Hval.
      replace (n mod 16 <? 16) with true by (symmetry; apply Z.ltb_lt; lia).
      f_equal. pose proof (Z.div_mod n 16 ltac:(lia)). lia.
Qed.

Lemma size_nat_bound (p : positive) : Zpos p < 16 ^ Z.of_nat (Pos.size_nat p).
Proof.
  assert (H2 : Zpos p < 2 ^ Z.of_nat (Pos.size_nat p)).
  { induction p as [q IH | q IH |]; [| | reflexivity];
      cbn [Pos.size_nat]; rewrite Nat2Z.inj_succ, Z.pow_succ_r by lia; lia. }
  eapply Z.lt_le_trans; [exact H2 |].
  apply Z.pow_le_mono_l. lia.
Qed.

Lemma rstrip_upper_hex (s : string) :
  all_chars is_upper_hex s = true -> rstrip s = s.
Proof.
  induction s as [| c s IH]; [reflexivity |].
  cbn [all_chars]. intro H. apply andb_true_iff in H. destruct H as [Hc Hs].
  apply rstrip_cons_kept; [| exact (IH Hs)].
  exact (proj1 (upper_hex_facts c Hc)).
Qed.

(** [int(s, 16)] on a non-empty upper-case hexadecimal numeral scans its
    digits as they stand. *)
Lemma int_of_string_hex (s : string) :
  all_chars is_upper_hex s = true -> s <> EmptyString ->
  int_of_string 16 s =
  (n <- scan_digits 16 0 false s ;; Return n).
Proof.
  intros Hall Hne.
  pose proof (rstrip_upper_hex s Hall) as Hr.
  destruct s as [| c s']; [contradiction Hne; reflexivity |].
  cbn [all_chars] in Hall. apply andb_true_iff in Hall.
  destruct Hall as [Hc Hs'].
  destruct (upper_hex_facts c Hc) as (Hsp & Hus & Hplus & Hminus & _).
  unfold int_of_string, strip.
  replace (lstrip (String c s')) with (String c s')
    by (cbn [lstrip]; rewrite Hsp; reflexivity).
  rewrite Hr.
  replace (skip_sign (String c s')) with (1, String c s')
    by (unfold skip_sign; rewrite Hplus, Hminus; reflexivity).
  cbv iota beta zeta.
  replace (skip_prefix 16 (String c s')) with (String c s').
  2:{ destruct s' as [| c2 s'']; [reflexivity |].
      cbn [all_chars] in Hs'. apply andb_true_iff in Hs'.
      destruct Hs' as [Hc2 _].
      destruct (upper_hex_facts c2 Hc2) as (_ & _ & _ & _ & Hpre & _).
      unfold skip_prefix. rewrite Hpre, andb_false_r. reflexivity. }
  rewrite Hus.
  destruct (scan_digits 16 0 false (String c s')) as [n | e]; cbn [bind];
    [| reflexivity].
  change (negb (is_power_of_two 16)) with false. cbn [andb].
  rewrite Z.mul_1_l. reflexivity.
Qed.

Lemma decimal_to_hex_positive (p : positive) :
  decimal_to_hex (Zpos p) = upper (hex_digits p).
Proof. reflexivity. Qed.

Lemma hex_digits_shape (p : positive) :
  all_chars is_upper_hex (upper (hex_digits p)) = true /\
  upper (hex_digits p) <> EmptyString.
Proof.
  unfold hex_digits. split.
  - apply digits_fuel_upper_hex. lia.
  - destruct p; apply digits_fuel_nonempty.
Qed.

Lemma hex_to_decimal_upper_digits (p : positive) :
  hex_to_decimal (upper (hex_digits p)) = Return (Zpos p).
Proof.
  destruct (hex_digits_shape p) as [Hall Hne].
  unfold hex_to_decimal. rewrite (int_of_string_hex _ Hall Hne).
  rewrite <- (string_app_nil_r (upper (hex_digits p))).
  unfold hex_digits.
  rewrite (scan_digits_fuel _ (Zpos p)); [reflexivity |].
  split; [lia | apply size_nat_bound].
Qed.

(** For every [n >= 0], [hex_to_decimal(decimal_to_hex(n))] is [n]. *)
Theorem hex_round_trip (n : Z) :
  0 <= n -> hex_to_decimal (decimal_to_hex n) = Return n.
Proof.
  intro Hn. destruct n as [| p | p]; [reflexivity | | lia].
  rewrite decimal_to_hex_positive. apply hex_to_decimal_upper_digits.
Qed.

Lemma hex_round_trip_witness :
  0 <= 48879 /\ hex_to_decimal (decimal_to_hex 48879) = Return 48879.
Proof.
  split; [lia | apply (hex_round_trip 48879); lia].
Defined.

(** For every [n >= 0], [decimal_to_hex(n)] is a non-empty string of the
    characters [0-9] and [A-F]: the letters are in upper case and the
    prefix of [hex] is gone. *)
Theorem decimal_to_hex_alphabet (n : Z) :
  0 <= n ->
  all_chars is_upper_hex (decimal_to_hex n) = true /\
  decimal_to_hex n <> EmptyString.
Proof.
  intro Hn. destruct n as [| p | p]; [split; [reflexivity | discriminate] | | lia].
  rewrite decimal_to_hex_positive. apply hex_digits_shape.
Qed.

Lemma decimal_to_hex_alphabet_witness :
  0 <= 255 /\
  all_chars is_upper_hex (decimal_to_hex 255) = true /\
  decimal_to_hex 255 <> EmptyString.
Proof.
  split; [lia | apply (decimal_to_hex_alphabet 255); lia].
Defined.

(** For a negative number the slice keeps the letter of the prefix of
    [hex]: the result is [X] followed by the numeral of the absolute
    value, and [hex_to_decimal] refuses it with a ValueError. *)
Theorem decimal_to_hex_negative (n : Z) :
  n < 0 ->
  decimal_to_hex n = String "X" (decimal_to_hex (- n)) /\
  hex_to_decimal (decimal_to_hex n) = Raise invalid_literal.
Proof.
  intro Hn. destruct n as [| p | p]; try lia.
  change (decimal_to_hex (Zneg p)) with (String "X" (upper (hex_digits p))).
  change (decimal_to_hex (- Zneg p)) with (upper (hex_digits p)).
  split; [reflexivity |].
  destruct (hex_digits_shape p) as [Hall Hne].
  unfold hex_to_decimal, int_of_string, strip.
  change (lstrip (String "X" (upper (hex_digits p))))
    with (String "X" (upper (hex_digits p))).
  rewrite (rstrip_cons_kept "X" _ eq_refl (rstrip_upper_hex _ Hall)).
  destruct (upper (hex_digits p)) as [| c rest];
    [contradiction Hne; reflexivity | reflexivity].
Qed.

Lemma decimal_to_hex_negative_witness :
  -255 < 0 /\
  decimal_to_hex (-255) = String "X" (decimal_to_hex (- -255)) /\
  hex_to_decimal (decimal_to_hex (-255)) = Raise invalid_literal.
Proof.
  split; [lia | apply (decimal_to_hex_negative (-255)); lia].
Defined.

End Hexadecimal.

Section ConversionChains.

Lemma binary_numeral_value (n : Z) :
  0 <= n -> binary_to_decimal (decimal_to_binary n) = Return n.
Proof.
  intro Hn.
  destruct (decimal_to_binary_binary n Hn) as [Hb Hne].
  unfold binary_to_decimal. rewrite (int_of_string_binary _ Hb Hne).
  destruct n as [| p | p]; [reflexivity | | lia].
  change (decimal_to_binary (Zpos p)) with (bin_digits p).
  rewrite binary_number_bin_digits. reflexivity.
Qed.

Lemma hex_numeral_value (n : Z) :
  0 <= n -> hex_to_decimal (decimal_to_hex n) = Return n.
Proof.
  intro Hn. destruct n as [| p | p]; [reflexivity | | lia].
  rewrite decimal_to_hex_positive. apply hex_to_decimal_upper_digits.
Qed.

(** The conversions between the two numerals go through the number: for
    [n >= 0], [binary_to_hex] of the binary numeral of [n] is its
    hexadecimal numeral and [hex_to_binary] of the hexadecimal numeral is
    the binary numeral. *)
Theorem numeral_conversions_agree (n : Z) :
  0 <= n ->
  binary_to_hex (decimal_to_binary n) = Return (decimal_to_hex n) /\
  hex_to_binary (decimal_to_hex n) = Return (decimal_to_binary n).
Proof.
  intro Hn. unfold binary_to_hex, hex_to_binary.
  rewrite (binary_numeral_value n Hn), (hex_numeral_value n Hn).
  split; reflexivity.
Qed.

Lemma numeral_conversions_agree_witness :
  0 <= 10 /\
  binary_to_hex (decimal_to_binary 10) = Return (decimal_to_hex 10) /\
  hex_to_binary (decimal_to_hex 10) = Return (decimal_to_binary 10).
Proof.
  split; [lia | apply (numeral_conversions_agree 10); lia].
Defined.

(** For [n >= 0] the three ways to show a number behave alike, from the
    number, from its binary numeral and from its hexadecimal numeral: they
    print the same three lines, or all raise the ValueError of [str] when
    the decimal numeral of [n] exceeds the digit limit. *)
Theorem show_conversions_agree (n : Z) :
  0 <= n ->
  show_conversions (VInt n) "decimal" =
    (shown <- str_of_int n ;;
     Return [ ("Decimal: " ++ shown)%string;
              ("Binary:  " ++ decimal_to_binary n)%string;
              ("Hex:     " ++ decimal_to_hex n)%string ]) /\
  show_conversions (VStr (decimal_to_binary n)) "binary" =
    show_conversions (VInt n) "decimal" /\
  show_conversions (VStr (decimal_to_hex n)) "hex" =
    show_conversions (VInt n) "decimal" /\
  (decimal_digits n <= int_max_str_digits ->
   show_conversions (VInt n) "decimal" =
     Return [ ("Decimal: " ++ decimal_string n)%string;
              ("Binary:  " ++ decimal_to_binary n)%string;
              ("Hex:     " ++ decimal_to_hex n)%string ]) /\
  (int_max_str_digits < decimal_digits n ->
   show_conversions (VInt n) "decimal" = Raise too_many_digits).
Proof.
  intro Hn. unfold show_conversions.
  cbn [String.eqb Ascii.eqb Bool.eqb].
  rewrite (binary_numeral_value n Hn), (hex_numeral_value n Hn).
  cbn [bind]. unfold conversion_lines. cbn [str_].
  repeat split.
  - intro Hd. unfold str_of_int.
    replace (int_max_str_digits <? decimal_digits n) with false
      by (symmetry; apply Z.ltb_ge; exact Hd).
    reflexivity.
  - intro Hd. unfold str_of_int.
    replace (int_max_str_digits <? decimal_digits n) with true
      by (symmetry; apply Z.ltb_lt; exact Hd).
    reflexivity.
Qed.

Lemma show_conversions_agree_witness :
  0 <= 255 /\
  show_conversions (VInt 255) "decimal" =
    (shown <- str_of_int 255 ;;
     Return [ ("Decimal: " ++ shown)%string;
              ("Binary:  " ++ decimal_to_binary 255)%string;
              ("Hex:     " ++ decimal_to_hex 255)%string ]) /\
  show_conversions (VStr (decimal_to_binary 255)) "binary" =
    show_conversions (VInt 255) "decimal" /\
  show_conversions (VStr (decimal_to_hex 255)) "hex" =
    show_conversions (VInt 255) "decimal" /\
  (decimal_digits 255 <= int_max_str_digits ->
   show_conversions (VInt 255) "decimal" =
     Return [ ("Decimal: " ++ decimal_string 255)%string;
              ("Binary:  " ++ decimal_to_binary 255)%string;
              ("Hex:     " ++ decimal_to_hex 255)%string ]) /\
  (int_max_str_digits < decimal_digits 255 ->
   show_conversions (VInt 255) "decimal" = Raise too_many_digits).
Proof.
  split; [lia | apply (show_conversions_agree 255); lia].
Defined.

End ConversionChains.

(** ** Further properties of truth_table.py *)

Section TableCoverage.

Lemma bit_tuples_complete (n : nat) :
  forall combo,
    List.length combo = n -> Forall is_bit combo ->
    In combo (product [0; 1] n).
Proof.
  rewrite product_nested_loops.
  induction n as [| n IH]; intros combo Hlen Hbits.
  - destruct combo; [left; reflexivity | discriminate Hlen].
  - destruct combo as [| b combo]; [discriminate Hlen |].
    injection Hlen as Hlen.
    apply Forall_cons_iff in Hbits. destruct Hbits as [Hb Hbits].
    rewrite bit_tuples_succ. apply in_or_app.
    destruct Hb as [-> | ->]; [left | right];
      apply in_map; exact (IH combo Hlen Hbits).
Qed.

(** When a loop returns, each of its steps returned. *)
Lemma for_each_returns (f : callable) (combos : list (list Z)) :
  forall init table,
    for_each combos
      (fun table combo =>
         result <- call f (map VInt combo) ;;
         r <- int_ result ;;
         Return (table ++ [combo ++ [r]]))
      init = Return table ->
    Forall (fun combo => exists v r,
                call f (map VInt combo) = Return v /\ int_ v = Return r) combos.
Proof.
  induction combos as [| combo combos IH]; intros init table Hloop;
    [constructor |].
  cbn [for_each] in Hloop.
  destruct (call f (map VInt combo)) as [v | e] eqn:Hcall;
    [| discriminate Hloop].
  cbn [bind] in Hloop.
  destruct (int_ v) as [r | e] eqn:Hint; [| discriminate Hloop].
  cbn [bind] in Hloop.
  constructor; [exists v, r; split; assumption | exact (IH _ _ Hloop)].
Qed.

(** The loop raises the exception of the first step that raises. *)
Lemma for_each_raises (f : callable) (pre post : list (list Z))
  (combo : list Z) (e : exn) :
  Forall (fun c => exists v r,
              call f (map VInt c) = Return v /\ int_ v = Return r) pre ->
  (call f (map VInt combo) = Raise e \/
   exists v, call f (map VInt combo) = Return v /\ int_ v = Raise e) ->
  forall init,
    for_each (pre ++ combo :: post)
      (fun table c =>
         result <- call f (map VInt c) ;;
         r <- int_ result ;;
         Return (table ++ [c ++ [r]]))
      init = Raise e.
Proof.
  intros Hpre Hfail.
  induction Hpre as [| c pre (v & r & Hcall & Hint) _ IH]; intro init.
  - cbn [app for_each].
    destruct Hfail as [Hcall | (v & Hcall & Hint)].
    + rewrite Hcall. reflexivity.
    + rewrite Hcall. cbn [bind]. rewrite Hint. reflexivity.
  - cbn [app for_each]. rewrite Hcall. cbn [bind]. rewrite Hint. cbn [bind].
    apply IH.
Qed.

(** [generate_table] returns a table exactly when the expression returns a
    value that [int] converts on every tuple of N bits; otherwise it
    raises. *)
Theorem generate_table_returns_iff_total (vars : list string) (f : callable) :
  (exists table, generate_table vars f = Return table) <->
  total_expr (List.length vars) f.
Proof.
  split.
  - intros [table Hgen] combo Hlen Hbits.
    pose proof (for_each_returns f _ _ _ Hgen) as Hall.
    rewrite Forall_forall in Hall. apply Hall.
    apply bit_tuples_complete; assumption.
  - intro Htotal.
    destruct (generate_table_rows vars f Htotal) as (table & Hgen & _).
    exists table. exact Hgen.
Qed.

Lemma rows_lookup (f : callable) (combos table : list (list Z))
  (combo : list Z) :
  Forall2 (row_for f) combos table ->
  In combo combos ->
  exists v r,
    call f (map VInt combo) = Return v /\ int_ v = Return r /\
    In (combo ++ [r]) table.
Proof.
  induction 1 as [| c row combos' table' Hrow _ IH]; intro Hin;
    [contradiction Hin |].
  destruct Hin as [-> | Hin].
  - destruct Hrow as (v & r & Hcall & Hint & ->).
    exists v, r. repeat split; try assumption. left; reflexivity.
  - destruct (IH Hin) as (v & r & Hcall & Hint & Hrow').
    exists v, r. repeat split; try assumption. right; exact Hrow'.
Qed.

(** The table covers every assignment: for each tuple of N bits it has the
    row made of the tuple and the converted value of the expression on it,
    so the value of the expression on any assignment can be looked up. *)
Theorem generate_table_covers_assignments (vars : list string) (f : callable)
  (table : list (list Z)) (combo : list Z) :
  generate_table vars f = Return table ->
  List.length combo = List.length vars -> Forall is_bit combo ->
  exists v r,
    call f (map VInt combo) = Return v /\ int_ v = Return r /\
    In (combo ++ [r]) table.
Proof.
  intros Hgen Hlen Hbits.
  assert (Htotal : total_expr (List.length vars) f).
  { intros c Hc Hb.
    pose proof (for_each_returns f _ _ _ Hgen) as Hall.
    rewrite Forall_forall in Hall. apply Hall.
    apply bit_tuples_complete; assumption. }
  destruct (generate_table_rows vars f Htotal) as (table' & Hgen' & Hrows & _).
  rewrite Hgen in Hgen'. injection Hgen' as <-.
  exact (rows_lookup f _ _ combo Hrows
           (bit_tuples_complete _ combo Hlen Hbits)).
Qed.

Lemma generate_table_covers_assignments_witness :
  generate_table ["A"; "B"]%string and_lambda
    = Return [[0; 0; 0]; [0; 1; 0]; [1; 0; 0]; [1; 1; 1]] /\
  List.length [1; 0] = List.length ["A"; "B"]%string /\
  Forall is_bit [1; 0] /\
  exists v r,
    call and_lambda (map VInt [1; 0]) = Return v /\ int_ v = Return r /\
    In ([1; 0] ++ [r]) [[0; 0; 0]; [0; 1; 0]; [1; 0; 0]; [1; 1; 1]].
Proof.
  split; [reflexivity |]. split; [reflexivity |].
  assert (Hbits : Forall is_bit [1; 0])
    by (repeat constructor; unfold is_bit; auto).
  split; [exact Hbits |].
  exact (generate_table_covers_assignments ["A"; "B"]%string and_lambda
           _ [1; 0] eq_refl eq_refl Hbits).
Defined.

(** An exception of the expression, or of the conversion of its result by
    [int], is not caught: [generate_table] raises the exception of the
    first combination, in the order of the enumeration, on which one of
    them raises. *)
Theorem generate_table_propagates_exception
  (vars : list string) (f : callable)
  (pre post : list (list Z)) (combo : list Z) (e : exn) :
  product [0; 1] (List.length vars) = pre ++ combo :: post ->
  Forall (fun c => exists v r,
              call f (map VInt c) = Return v /\ int_ v = Return r) pre ->
  (call f (map VInt combo) = Raise e \/
   exists v, call f (map VInt combo) = Return v /\ int_ v = Raise e) ->
  generate_table vars f = Raise e.
Proof.
  intros Hsplit Hpre Hfail. unfold generate_table. cbv zeta.
  rewrite Hsplit. exact (for_each_raises f pre post combo e Hpre Hfail []).
Qed.

Lemma generate_table_propagates_exception_witness :
  let f := {| min_args := 1; max_args := Some 1%nat;
              body := fun args =>
                        match args with
                        | [VInt 0] => Return (VBool true)
                        | _ => Return VNone
                        end |} in
  let e := TypeError "int() argument must be a string, a bytes-like object or a real number, not 'NoneType'" in
  product [0; 1] (List.length ["A"]%string) = [[0]] ++ [1] :: [] /\
  Forall (fun c => exists v r,
              call f (map VInt c) = Return v /\ int_ v = Return r) [[0]] /\
  (call f (map VInt [1]) = Raise e \/
   exists v, call f (map VInt [1]) = Return v /\ int_ v = Raise e) /\
  generate_table ["A"]%string f = Raise e.
Proof.
  intros f e.
  assert (Hpre : Forall (fun c => exists v r,
              call f (map VInt c) = Return v /\ int_ v = Return r) [[0]]).
  { constructor; [| constructor]. exists (VBool true), 1. split; reflexivity. }
  assert (Hfail : call f (map VInt [1]) = Raise e \/
            exists v, call f (map VInt [1]) = Return v /\ int_ v = Raise e).
  { right. exists VNone. split; reflexivity. }
  split; [reflexivity |]. split; [exact Hpre |]. split; [exact Hfail |].
  exact (generate_table_propagates_exception ["A"]%string f [[0]] [] [1] e
           eq_refl Hpre Hfail).
Defined.

End TableCoverage.

Section GateTables.

(** With two variable names, whatever they are, [and_table], [or_table]
    and [xor_table] print and return the truth tables of conjunction,
    disjunction and exclusive or, and [not_table] with one name that of
    negation. *)
Theorem gate_tables_values (a b : string) :
  let header2 := (join " | " [a; b] ++ " | Result")%string in
  let header1 := (join " | " [a] ++ " | Result")%string in
  and_table [a; b] =
    ([header2; repeat_char "-" (String.length header2);
      "0 | 0 | 0"; "0 | 1 | 0"; "1 | 0 | 0"; "1 | 1 | 1"]%string,
     Return [[0; 0; 0]; [0; 1; 0]; [1; 0; 0]; [1; 1; 1]]) /\
  or_table [a; b] =
    ([header2; repeat_char "-" (String.length header2);
      "0 | 0 | 0"; "0 | 1 | 1"; "1 | 0 | 1"; "1 | 1 | 1"]%string,
     Return [[0; 0; 0]; [0; 1; 1]; [1; 0; 1]; [1; 1; 1]]) /\
  xor_table [a; b] =
    ([header2; repeat_char "-" (String.length header2);
      "0 | 0 | 0"; "0 | 1 | 1"; "1 | 0 | 1"; "1 | 1 | 0"]%string,
     Return [[0; 0; 0]; [0; 1; 1]; [1; 0; 1]; [1; 1; 0]]) /\
  not_table [a] =
    ([header1; repeat_char "-" (String.length header1);
      "0 | 1"; "1 | 0"]%string,
     Return [[0; 1]; [1; 0]]).
Proof. repeat split. Qed.

(** The gate tables take exactly as many variable names as their gate has
    inputs: with another number of names the first call of the expression
    raises the argument-mismatch TypeError and nothing is printed. *)
Theorem gate_tables_wrong_names (var_names : list string) :
  (List.length var_names <> 2%nat ->
   and_table var_names = ([], Raise argument_mismatch) /\
   or_table var_names = ([], Raise argument_mismatch) /\
   xor_table var_names = ([], Raise argument_mismatch)) /\
  (List.length var_names <> 1%nat ->
   not_table var_names = ([], Raise argument_mismatch)).
Proof.
  assert (Hrej : forall f k, fixed_arity f k -> k <> List.length var_names ->
                             generate_table var_names f = Raise argument_mismatch).
  { intros f k [Hmin Hmax] Hk. apply generate_table_rejects.
    unfold accepts. rewrite Hmin, Hmax.
    destruct (Nat.leb_spec k (List.length var_names)) as [Hle | Hgt];
      [| reflexivity].
    apply Nat.leb_gt. lia. }
  split; intro Hlen.
  - unfold and_table, or_table, xor_table.
    rewrite (Hrej and_lambda 2%nat), (Hrej or_lambda 2%nat),
      (Hrej xor_lambda 2%nat);
      try (split; reflexivity); try (intro Heq; apply Hlen; symmetry; exact Heq).
    repeat split.
  - unfold not_table.
    rewrite (Hrej not_lambda 1%nat);
      [reflexivity | split; reflexivity
      | intro Heq; apply Hlen; symmetry; exact Heq].
Qed.

Lemma str_all_printable (row : list Z) :
  Forall (fun z => decimal_digits z <= int_max_str_digits) row ->
  str_all row = Return (map decimal_string row).
Proof.
  induction 1 as [| z row Hz _ IH]; [reflexivity |].
  cbn [str_all map]. unfold str_of_int.
  replace (int_max_str_digits <? decimal_digits z) with false
    by (symmetry; apply Z.ltb_ge; exact Hz).
  cbn [bind]. rewrite IH. reflexivity.
Qed.

Lemma str_all_refused (row : list Z) :
  Exists (fun z => int_max_str_digits < decimal_digits z) row ->
  str_all row = Raise too_many_digits.
Proof.
  induction 1 as [z row Hz | z row _ IH]; cbn [str_all]; unfold str_of_int.
  - replace (int_max_str_digits <? decimal_digits z) with true
      by (symmetry; apply Z.ltb_lt; exact Hz).
    reflexivity.
  - destruct (int_max_str_digits <? decimal_digits z); [reflexivity |].
    cbn [bind]. rewrite IH. reflexivity.
Qed.

Lemma print_rows_until (pre : list (list Z)) :
  Forall (Forall (fun z => decimal_digits z <= int_max_str_digits)) pre ->
  forall rest,
    print_rows (pre ++ rest) =
    (map (fun row => join " | " (map decimal_string row)) pre
       ++ fst (print_rows rest),
     snd (print_rows rest)).
Proof.
  induction 1 as [| row pre Hrow _ IH]; intro rest.
  - cbn [app map]. destruct (print_rows rest); reflexivity.
  - cbn [app map print_rows]. rewrite (str_all_printable row Hrow), IH.
    reflexivity.
Qed.

(** [show_table] prints the header and a rule of dashes as long as the
    header, then the rows in order, each as its decimal entries joined by
    [" | "].  It stops at the first row holding an integer whose numeral
    exceeds the digit limit of [str]: the header, the rule and the rows
    before that one are printed, then the ValueError is raised; without
    such a row every row is printed and it returns. *)
Theorem show_table_output (variables : list string)
  (pre post : list (list Z)) (row : list Z) :
  Forall (Forall (fun z => decimal_digits z <= int_max_str_digits)) pre ->
  let header := (join " | " variables ++ " | Result")%string in
  let printed :=
    header :: repeat_char "-" (String.length header)
      :: map (fun r => join " | " (map decimal_string r)) pre in
  show_table variables pre = (printed, Return tt) /\
  String.length (nth 1 printed EmptyString) = String.length header /\
  (Exists (fun z => int_max_str_digits < decimal_digits z) row ->
   show_table variables (pre ++ row :: post) = (printed, Raise too_many_digits)).
Proof.
  intros Hpre header printed. unfold show_table. fold header.
  repeat split.
  - rewrite <- (app_nil_r pre) at 1.
    rewrite (print_rows_until pre Hpre []). cbn [print_rows fst snd].
    rewrite app_nil_r. reflexivity.
  - cbn [nth printed]. apply repeat_char_length.
  - intro Hrow. rewrite (print_rows_until pre Hpre (row :: post)).
    cbn [print_rows]. rewrite (str_all_refused row Hrow). cbn [fst snd].
    rewrite app_nil_r. reflexivity.
Qed.

Lemma show_table_output_witness :
  Forall (Forall (fun z => decimal_digits z <= int_max_str_digits))
    [[0; 1]; [1; 0]] /\
  let header := (join " | " ["A"]%string ++ " | Result")%string in
  let printed :=
    header :: repeat_char "-" (String.length header)
      :: map (fun r => join " | " (map decimal_string r)) [[0; 1]; [1; 0]] in
  show_table ["A"]%string [[0; 1]; [1; 0]] = (printed, Return tt) /\
  String.length (nth 1 printed EmptyString) = String.length header /\
  (Exists (fun z => int_max_str_digits < decimal_digits z) [] ->
   show_table ["A"]%string ([[0; 1]; [1; 0]] ++ [] :: [])
     = (printed, Raise too_many_digits)).
Proof.
  assert (Hpre : Forall (Forall (fun z => decimal_digits z <= int_max_str_digits))
                   [[0; 1]; [1; 0]]).
  { repeat constructor; vm_compute; discriminate. }
  split; [exact Hpre |].
  exact (show_table_output ["A"]%string [[0; 1]; [1; 0]] [] [] Hpre).
Defined.

End GateTables.
